(** * Weather refresh of the city list: cooldown gate, fetch, all-or-nothing update

    A shallow embedding of [main.py] and [models.py]: the SQLAlchemy session
    as a small state-and-exception monad over the two tables, a coroutine as
    one outbound request with its continuation, [asyncio.gather] over the
    replies of the forecast service, and the route handlers on top. *)

From Stdlib Require Import ZArith QArith Floats Lia.
From stdpp Require Import gmap strings list pretty.

#[local] Set Warnings "-inexact-float,-register-all".
Close Scope Q_scope.
Local Open Scope Z_scope.

(** ** Python values *)

(** A naive [datetime] has microsecond resolution: it is counted in
    microseconds, and so is a [timedelta]. *)
Definition datetime := Z.
Definition timedelta := Z.

(** [timedelta.total_seconds()]. *)
Definition total_seconds (d : timedelta) : Q := Qmake d 1000000.

(** The exceptions that travel through the handlers. [ClientError] stands for
    [aiohttp.ClientError] and its subclasses (connection refused, DNS failure,
    a socket-level timeout, a wrong content type); [TimeoutError] is
    [asyncio.TimeoutError], which aiohttp raises when the total time given by
    [ClientTimeout(total=...)] is exceeded and which is not a [ClientError].
    [ClientError] and [KeyError] carry [str(e)]. *)
Inductive exn :=
| HTTPException (status_code : Z) (detail : string)
| ClientError (str : string)
| KeyError (str : string)
| TimeoutError
| IntegrityError
| OtherError (cls : string).

(** What a call does: it returns a value or raises. *)
Inductive result (A : Type) :=
| Return (a : A)
| Raise (e : exn).
Arguments Return {A} a.
Arguments Raise {A} e.

Global Instance result_ret : MRet result := fun A a => Return a.
Global Instance result_bind : MBind result := fun A B f r =>
  match r with
  | Return a => f a
  | Raise e => Raise e
  end.

(** [d[key]] on a dict. *)
Definition subscript {V} (d : gmap string V) (key : string) : result V :=
  match d !! key with
  | Some v => Return v
  | None => Raise (KeyError ("'" +:+ key +:+ "'"))
  end.

(** What [json.loads] yields: [None], [bool], [int], [float], [str], [list]
    and [dict] with [str] keys ([NaN] and [Infinity] are read as floats). *)
Inductive value :=
| VNone
| VBool (b : bool)
| VInt (n : Z)
| VFloat (x : float)
| VStr (s : string)
| VList (items : list value)
| VDict (items : gmap string value).

(** [v[key]] with a [str] key: only a dict takes one, every other value
    raises [TypeError]. *)
Definition getitem (v : value) (key : string) : result value :=
  match v with
  | VDict d => subscript d key
  | _ => Raise (OtherError "TypeError")
  end.

(** ** models.py *)

Record City := {
  id : Z;
  name : string;
  latitude : float;
  longitude : float;
  temperature : option float;
  updated_at : option datetime
}.

Record DefaultCity := {
  default_id : Z;
  default_name : string;
  default_latitude : float;
  default_longitude : float
}.

(** The two tables of [cities.db], rows in rowid order. *)
Record Database := {
  cities : list City;
  default_cities : list DefaultCity
}.

(** ** The session of one request *)

(** [stored] is what the database file holds, [pending] the tables as the
    SQL run in the open transaction has left them, [dirty] the City objects
    whose attributes were assigned since they were loaded (for each, the row
    the UPDATE of the flush will write, or the exception that binding its
    values will raise), [added] the objects handed to [db.add] and not yet
    flushed, [requests] the coordinates for which a task has called
    [session.get], whether or not the request got through. *)
Record World := {
  stored : Database;
  pending : Database;
  dirty : option (list (result City));
  added : list City;
  requests : list (float * float)
}.

Definition M (A : Type) : Type := World -> result A * World.

Global Instance M_ret : MRet M := fun A a w => (Return a, w).
Global Instance M_bind : MBind M := fun A B f m w =>
  match m w with
  | (Return a, w') => f a w'
  | (Raise e, w') => (Raise e, w')
  end.

Definition raise {A} (e : exn) : M A := fun w => (Raise e, w).

(** [try: m except ...: h], where [h] answers [None] for an exception no
    clause matches. *)
Definition try_except {A} (m : M A) (h : exn -> option (M A)) : M A := fun w =>
  match m w with
  | (Return a, w') => (Return a, w')
  | (Raise e, w') =>
      match h e with
      | Some k => k w'
      | None => (Raise e, w')
      end
  end.

Definition with_cities (rows : list City) (d : Database) : Database :=
  {| cities := rows; default_cities := default_cities d |}.

Definition with_pending (d : Database) (w : World) : World :=
  {| stored := stored w; pending := d; dirty := dirty w;
     added := added w; requests := requests w |}.

(** [db.query(City).all()] *)
Definition query_City_all : M (list City) := fun w =>
  (Return (cities (pending w)), w).

(** [db.query(DefaultCity).all()] *)
Definition query_DefaultCity_all : M (list DefaultCity) := fun w =>
  (Return (default_cities (pending w)), w).

(** [db.query(City).delete()]: the DELETE runs at once, inside the
    transaction. *)
Definition query_City_delete : M unit := fun w =>
  (Return tt, with_pending (with_cities [] (pending w)) w).

(** [db.add(obj)]; the [id] of an object that was never flushed counts for
    nothing, the INSERT gives it one. *)
Definition db_add (obj : City) : M unit := fun w =>
  (Return tt,
   {| stored := stored w; pending := pending w; dirty := dirty w;
      added := added w ++ [obj]; requests := requests w |}).

(** [db.delete(obj)] for a persistent object: its row goes. *)
Fixpoint delete_row (city_id : Z) (rows : list City) : list City :=
  match rows with
  | [] => []
  | c :: rows' =>
      if bool_decide (id c = city_id) then rows' else c :: delete_row city_id rows'
  end.

Definition db_delete (obj : City) : M unit := fun w =>
  (Return tt, with_pending (with_cities (delete_row (id obj) (cities (pending w))) (pending w)) w).

(** The objects of [db.query(City).all()] stand for the rows, position by
    position: once attributes are assigned on them they are dirty, and the
    flush writes them back. *)
Definition mutate (objs : list (result City)) : M unit := fun w =>
  (Return tt,
   {| stored := stored w; pending := pending w; dirty := Some objs;
      added := added w; requests := requests w |}).

(** The rowid SQLite gives an INSERT into a table with an INTEGER PRIMARY
    KEY: one more than the largest in the table. *)
Definition next_id (rows : list City) : Z :=
  1 + foldr Z.max 0 (id <$> rows).

(** The INSERT of one added object; [name] is UNIQUE. *)
Definition insert_row (obj : City) (rows : list City) : result (list City) :=
  if bool_decide (name obj ∈ name <$> rows) then Raise IntegrityError
  else Return (rows ++ [{| id := next_id rows; name := name obj;
                           latitude := latitude obj; longitude := longitude obj;
                           temperature := temperature obj;
                           updated_at := updated_at obj |}]).

Fixpoint flush (objs : list City) (rows : list City) : result (list City) :=
  match objs with
  | [] => Return rows
  | obj :: objs' => rows' ← insert_row obj rows; flush objs' rows'
  end.

(** The UPDATEs of the dirty objects: the first one whose values cannot be
    bound fails the flush. *)
Definition flush_dirty (objs : option (list (result City))) (rows : list City) :
    result (list City) :=
  match objs with
  | None => Return rows
  | Some objs => mapM (fun obj => obj) objs
  end.

(** [db.commit()]: flush the dirty and the added objects, then make the
    transaction's tables the stored ones; a flush that raises leaves the
    stored tables alone. *)
Definition commit : M unit := fun w =>
  match flush_dirty (dirty w) (cities (pending w)) ≫= flush (added w) with
  | Return rows =>
      let d := with_cities rows (pending w) in
      (Return tt, {| stored := d; pending := d; dirty := None;
                     added := []; requests := requests w |})
  | Raise e => (Raise e, w)
  end.

(** What a request leaves behind and answers. *)
Record Run (A : Type) := {
  returned : result A;
  store : Database;
  fetched : list (float * float)
}.
Arguments returned {A} _.
Arguments store {A} _.
Arguments fetched {A} _.

(** [Depends(get_db)]: a fresh session on the database, closed when the
    handler is done, whatever it did; closing drops what was not committed. *)
Definition get_db {A} (handler : M A) (db : Database) : Run A :=
  let '(r, w) := handler {| stored := db; pending := db; dirty := None;
                            added := []; requests := [] |} in
  {| returned := r; store := stored w; fetched := requests w |}.

(** ** The forecast service and coroutines *)

(** What [session.get(api_url)] followed by [response.json()] comes to, in
    a session made with [ClientTimeout(total=10)]: the aiohttp calls raise
    ([TimeoutError] once the 10 seconds are over), or the service answers
    with a status and a body that [response.json()] reads as some value. *)
Inductive reply :=
| Raised (e : exn)
| Responded (status : Z) (response_data : value).

(** A coroutine that awaits one GET: the coordinates in the query string it
    hands to [session.get], and how it goes on from the reply. *)
Record coroutine (A : Type) := {
  request : float * float;
  resume : reply -> result A
}.
Arguments request {A} _.
Arguments resume {A} _.

(** The [except] clauses of [fetch_weather]. *)
Definition fetch_weather_except (e : exn) : result value :=
  match e with
  | ClientError str => Raise (HTTPException 500 ("网络请求错误：" +:+ str))
  | KeyError str => Raise (HTTPException 500 ("API响应数据格式错误：缺少" +:+ str +:+ "字段"))
  | _ => Raise e
  end.

(** The declared return type, [float], is not checked: what comes back is
    the value found under the two keys, whatever it is. *)
Definition fetch_weather (latitude longitude : float) : coroutine value :=
  {| request := (latitude, longitude);
     resume := fun r =>
       let body : result value :=
         match r with
         | Raised e => Raise e
         | Responded status response_data =>
             if bool_decide (status ≠ 200) then
               Raise (HTTPException 503 ("天气API请求失败，状态码：" +:+ pretty status))
             else
               current_weather ← getitem response_data "current_weather";
               getitem current_weather "temperature"
         end in
       match body with
       | Return t => Return t
       | Raise e => fetch_weather_except e
       end |}.

(** What a refresh meets that the source does not fix: what
    [datetime.now()] reads for code that runs after a given turn of the
    event loop, counted from the start of the handler; the reply the [k]-th
    task of a gather gets to its request; the turn at which that task
    settles; and what the flush makes of a temperature that is neither
    [None] nor a float when it binds it to the Float column (a float or NULL
    to store, or an exception). *)
Record Env := {
  clock : nat -> datetime;
  service : nat -> float * float -> reply;
  settles : nat -> nat;
  coerce : value -> result (option float)
}.

(** The reading of [datetime.now()] in [check_update_cooldown], the first
    thing the handler does. *)
Definition now_cooldown (env : Env) : datetime := clock env 0.

(** The turn by which every task of a gather over [rows] has settled: the
    awaiter of a gather whose tasks all return goes on after it. *)
Definition last_settled (env : Env) (rows : list City) : nat :=
  foldr Nat.max 0%nat (imap (fun k _ => settles env k) rows).

(** The reading of [datetime.now()] in [update_weather], which runs once
    the gather over [rows] is back. *)
Definition now_update (env : Env) (rows : list City) : datetime :=
  clock env (last_settled env rows).

(** What the flush stores for a temperature attribute: [None] is NULL, a
    float is itself, except that SQLite stores NaN as NULL; any other value
    goes through [coerce]. *)
Definition bind_temperature (env : Env) (temp : value) : result (option float) :=
  match temp with
  | VNone => Return None
  | VFloat x => Return (if PrimFloat.is_nan x then None else Some x)
  | _ => coerce env temp
  end.

(** The exception of the task that raised first, in settling order (the
    earlier task of two that settle in the same turn). *)
Fixpoint first_raised {A} (settled : list (nat * result A)) : option (nat * exn) :=
  match settled with
  | [] => None
  | (n, Raise e) :: rest =>
      match first_raised rest with
      | Some (m, e') => if (m <? n)%nat then Some (m, e') else Some (n, e)
      | None => Some (n, e)
      end
  | (_, Return _) :: rest => first_raised rest
  end.

Definition value_of {A} (s : nat * result A) : option A :=
  match snd s with
  | Return a => Some a
  | Raise _ => None
  end.

(** [await asyncio.gather] over [tasks]: every task is started and calls
    [session.get]; the first exception raised goes to the awaiter, the other
    tasks run on and their results are dropped; with no exception the
    results come back in the order of [tasks]. *)
Definition gather {A} (env : Env) (tasks : list (coroutine A)) : M (list A) := fun w =>
  let settled :=
    imap (fun k task => (settles env k, resume task (service env k (request task)))) tasks in
  let w' := {| stored := stored w; pending := pending w; dirty := dirty w;
               added := added w;
               requests := requests w ++ (request <$> tasks) |} in
  match first_raised settled with
  | Some (_, e) => (Raise e, w')
  | None => (Return (omap value_of settled), w')
  end.

(** ** The helpers of main.py *)

(** SQLite orders NULL below every value. *)
Definition sqlite_leb (a b : option datetime) : bool :=
  match a, b with
  | None, _ => true
  | Some _, None => false
  | Some x, Some y => x <=? y
  end.

(** [ORDER BY updated_at DESC] *)
Fixpoint insert_desc (x : option datetime) (sorted : list (option datetime)) :
    list (option datetime) :=
  match sorted with
  | [] => [x]
  | y :: sorted' =>
      if sqlite_leb y x then x :: sorted else y :: insert_desc x sorted'
  end.

Definition order_by_desc (column : list (option datetime)) : list (option datetime) :=
  foldr insert_desc [] column.

(** [db.query(City.updated_at).order_by(City.updated_at.desc()).first()]:
    the first row of the ordered column, [None] when there is no row. *)
Definition query_updated_at_desc_first : M (option (option datetime)) := fun w =>
  (Return (head (order_by_desc (updated_at <$> cities (pending w)))), w).

Definition check_update_cooldown (env : Env) : M bool :=
  last_updated ← query_updated_at_desc_first;
  match last_updated with
  | None | Some None => mret true
  | Some (Some last) =>
      let time_diff : timedelta := now_cooldown env - last in
      mret (Qle_bool 900 (total_seconds time_diff))
  end.

(** [for x in xs: body(x)] *)
Fixpoint for_each {A} (xs : list A) (body : A -> M unit) : M unit :=
  match xs with
  | [] => mret tt
  | x :: xs' => body x;; for_each xs' body
  end.

Definition reset_cities_to_default : M unit :=
  query_City_delete;;
  default_cities ← query_DefaultCity_all;
  if bool_decide (default_cities = []) then
    raise (HTTPException 500 "默认城市数据为空，无法重置")
  else
    for_each default_cities (fun default_city =>
      db_add {| id := 0;
                name := default_name default_city;
                latitude := default_latitude default_city;
                longitude := default_longitude default_city;
                temperature := None;
                updated_at := None |});;
    commit.

(** ** The routes *)

Record RedirectResponse := {
  url : string;
  response_status_code : Z
}.

Definition redirect_home : RedirectResponse :=
  {| url := "/"; response_status_code := 303 |}.

Section Routes.

(** Python's [str.strip]. *)
Variable strip : string -> string.

(** [add_city], from its body on: the form fields have passed FastAPI's
    declared validation by then. *)
Definition add_city (name' : string) (latitude longitude : float) :
    M RedirectResponse :=
  rows ← query_City_all;
  if bool_decide (strip name' ∈ name <$> rows) then
    raise (HTTPException 400 ("城市「" +:+ name' +:+ "」已存在，不可重复添加"))
  else
    let new_city := {| id := 0; name := strip name';
                       latitude := latitude; longitude := longitude;
                       temperature := None; updated_at := None |} in
    db_add new_city;;
    commit;;
    mret redirect_home.

(** [remove_city] *)
Definition remove_city (city_id : Z) : M RedirectResponse :=
  rows ← query_City_all;
  match filter (fun c => id c = city_id) rows with
  | [] => raise (HTTPException 404 ("城市ID " +:+ pretty city_id +:+ " 不存在，无法删除"))
  | city :: _ =>
      db_delete city;;
      commit;;
      mret redirect_home
  end.

(** [reset_cities] *)
Definition reset_cities : M RedirectResponse :=
  reset_cities_to_default;;
  mret redirect_home.

(** The loop over [zip(cities, temperatures)]: it stops with the shorter
    list, and the objects it did not reach stay as they were. For each
    object reached, the row the flush will write: [updated_at] as assigned,
    [temperature] as the column takes the value assigned. *)
Fixpoint assign (env : Env) (cities : list City) (temperatures : list value)
    (current_time : datetime) : list (result City) :=
  match cities, temperatures with
  | city :: cities', temp :: temperatures' =>
      (stored_temp ← bind_temperature env temp;
       Return {| id := id city; name := name city;
                 latitude := latitude city; longitude := longitude city;
                 temperature := stored_temp;
                 updated_at := Some current_time |})
      :: assign env cities' temperatures' current_time
  | _, _ => Return <$> cities
  end.

(** [update_weather] *)
Definition update_weather (env : Env) : M RedirectResponse :=
  permitted ← check_update_cooldown env;
  if negb permitted then
    raise (HTTPException 400 "距离上次更新不足15分钟,请稍后再试")
  else
    cities ← query_City_all;
    if bool_decide (cities = []) then
      raise (HTTPException 400 "当前无城市数据，无法更新温度")
    else
      let tasks := (fun city => fetch_weather (latitude city) (longitude city)) <$> cities in
      temperatures ←
        try_except (gather env tasks)
          (fun e => match e with
                    | HTTPException status_code detail =>
                        Some (raise (HTTPException status_code detail))
                    | _ => None
                    end);
      let current_time := now_update env cities in
      mutate (assign env cities temperatures current_time);;
      commit;;
      mret redirect_home.

(** The requests that reach the city store. *)
Inductive operation :=
| AddCity (name : string) (latitude longitude : float)
| RemoveCity (city_id : Z)
| ResetCities
| UpdateWeather (env : Env).

Definition serve (op : operation) (db : Database) : Run RedirectResponse :=
  match op with
  | AddCity name latitude longitude => get_db (add_city name latitude longitude) db
  | RemoveCity city_id => get_db (remove_city city_id) db
  | ResetCities => get_db reset_cities db
  | UpdateWeather env => get_db (update_weather env) db
  end.

End Routes.

(** ** The scenario of three cities *)

Definition city (id : Z) (name : string) (latitude longitude : float) : City :=
  {| id := id; name := name; latitude := latitude; longitude := longitude;
     temperature := None; updated_at := None |}.

Definition three_cities : Database :=
  {| cities := [city 1 "Paris" 48.85 2.35; city 2 "Berlin" 52.52 13.4;
                city 3 "Rome" 41.9 12.5];
     default_cities := [] |}.

Definition weather (temperature : float) : reply :=
  Responded 200
    (VDict {[ "current_weather" := VDict {[ "temperature" := VFloat temperature ]} ]}).

(** A service that knows the three cities by their coordinates. *)
Definition mock_service (berlin : reply) (k : nat) (at_ : float * float) : reply :=
  if (fst at_ =? 48.85)%float then weather 10.0
  else if (fst at_ =? 52.52)%float then berlin
  else if (fst at_ =? 41.9)%float then weather 20.0
  else Raised (ClientError "Cannot connect to host").

Definition mock_env (berlin : reply) (now : datetime) : Env :=
  {| clock := fun turn => now;
     service := mock_service berlin; settles := fun k => k;
     coerce := fun temp => Raise (OtherError "StatementError") |}.

(** ** The answers of the refresh, by the names the design gives them *)

Definition CooldownActive : exn :=
  HTTPException 400 "距离上次更新不足15分钟,请稍后再试".

Definition NoCities : exn :=
  HTTPException 400 "当前无城市数据，无法更新温度".

Definition UpstreamUnavailable (status : Z) : exn :=
  HTTPException 503 ("天气API请求失败，状态码：" +:+ pretty status).

Definition NetworkError (str : string) : exn :=
  HTTPException 500 ("网络请求错误：" +:+ str).

Definition MalformedResponse (key : string) : exn :=
  HTTPException 500 ("API响应数据格式错误：缺少'" +:+ key +:+ "'字段").

(** What the [k]-th task of a refresh, the fetch for [c], comes to. *)
Definition fetch_outcome (env : Env) (k : nat) (c : City) : result value :=
  resume (fetch_weather (latitude c) (longitude c))
         (service env k (latitude c, longitude c)).

(** The tasks of a refresh over [rows], as [gather] sees them settle. *)
Definition outcomes (env : Env) (rows : list City) : list (nat * result value) :=
  imap (fun k c => (settles env k, fetch_outcome env k c)) rows.

(** The answer of the cooldown gate on a database. *)
Definition permitted (env : Env) (db : Database) : bool :=
  match returned (get_db (check_update_cooldown env) db) with
  | Return b => b
  | Raise _ => false
  end.

(** The row [c] after a refresh stored [temp] for it at [now]. *)
Definition refreshed (temp : option float) (now : datetime) (c : City) : City :=
  {| id := id c; name := name c; latitude := latitude c; longitude := longitude c;
     temperature := temp; updated_at := Some now |}.

(** The invariant of a row: temperature and timestamp are set together. *)
Definition paired (c : City) : Prop :=
  temperature c = None <-> updated_at c = None.

(** The coordinates a refresh over [rows] asks the service about. *)
Definition coordinates (rows : list City) : list (float * float) :=
  (fun c => (latitude c, longitude c)) <$> rows.

(** The three cities after a refresh at 1000 microseconds. *)
Definition refreshed_cities : Database :=
  store (get_db (update_weather (mock_env (weather 15.0) 1000)) three_cities).

Definition no_cities : Database := {| cities := []; default_cities := [] |}.

Definition one_city : Database :=
  {| cities := [city 1 "Paris" 48.85 2.35]; default_cities := [] |}.

(** ** The index page *)

(** [ORDER BY temperature DESC NULLS LAST]: whether a row with temperature
    [a] may stand before one with temperature [b]. *)
Definition desc_nullslast (a b : option float) : bool :=
  match a, b with
  | Some x, Some y => (y <=? x)%float
  | Some _, None => true
  | None, Some _ => false
  | None, None => true
  end.

Fixpoint insert_by_temperature (row : City) (sorted : list City) : list City :=
  match sorted with
  | [] => [row]
  | next :: sorted' =>
      if desc_nullslast (temperature row) (temperature next) then row :: sorted
      else next :: insert_by_temperature row sorted'
  end.

Definition order_by_temperature_desc_nullslast (rows : list City) : list City :=
  foldr insert_by_temperature [] rows.

(** [templates.TemplateResponse(name, context)], as far as the context
    holds cities. *)
Record TemplateResponse := {
  template_name : string;
  context_cities : list City
}.

(** [read_index] *)
Definition read_index : M TemplateResponse := fun w =>
  (Return {| template_name := "index.html";
             context_cities := order_by_temperature_desc_nullslast (cities (pending w)) |},
   w).

(** ** The keys of the cities table *)

(** [id] is the primary key, given from 1 up, and [name] is unique. *)
Definition keyed (rows : list City) : Prop :=
  NoDup (id <$> rows) /\ NoDup (name <$> rows) /\ Forall (fun c => 1 <= id c) rows.

(** The row a route inserts. *)
Definition new_row (id : Z) (name : string) (latitude longitude : float) : City :=
  {| id := id; name := name; latitude := latitude; longitude := longitude;
     temperature := None; updated_at := None |}.

(** The row the INSERT of [obj] leaves, with the rowid it was given. *)
Definition inserted (rowid : Z) (obj : City) : City :=
  {| id := rowid; name := name obj;
     latitude := latitude obj; longitude := longitude obj;
     temperature := temperature obj; updated_at := updated_at obj |}.

(** A database with two default cities and the three cities refreshed. *)
Definition europe : list DefaultCity :=
  [{| default_id := 1; default_name := "Vienna";
      default_latitude := 48.21; default_longitude := 16.37 |};
   {| default_id := 2; default_name := "Oslo";
      default_latitude := 59.91; default_longitude := 10.75 |}].

Definition refreshed_with_defaults : Database :=
  {| cities := cities refreshed_cities; default_cities := europe |}.

(** * Proofs *)

(** Each row of a concrete table, position by position. *)
Ltac by_position_from k Hc :=
  cbn in Hc;
  first [ discriminate Hc
        | destruct k as [|k];
          [ inversion Hc; subst; eexists; eexists;
            split; vm_compute; reflexivity
          | by_position_from k Hc ] ].

Ltac by_position :=
  let k := fresh "k" in
  let c := fresh "c" in
  let Hc := fresh "Hc" in
  intros k c Hc; by_position_from k Hc.

(** ** The cooldown gate *)

Lemma total_seconds_ge_900 (d : timedelta) :
  Qle_bool 900 (total_seconds d) = true <-> 900000000 <= d.
Proof.
  unfold total_seconds, Qle_bool. simpl. rewrite Z.leb_le. lia.
Qed.

Lemma total_seconds_Qle_900 (d : timedelta) :
  (900 <= total_seconds d)%Q <-> 900000000 <= d.
Proof. rewrite <- Qle_bool_iff. apply total_seconds_ge_900. Qed.

Lemma head_insert_desc x sorted :
  head (insert_desc x sorted) =
  Some (match head sorted with
        | None => x
        | Some y => if sqlite_leb y x then x else y
        end).
Proof. destruct sorted as [|y sorted]; simpl; [done|]. by destruct (sqlite_leb y x). Qed.

Lemma sqlite_leb_refl a : sqlite_leb a a = true.
Proof. destruct a; simpl; [apply Z.leb_refl | done]. Qed.

Lemma sqlite_leb_trans a b c :
  sqlite_leb a b = true -> sqlite_leb b c = true -> sqlite_leb a c = true.
Proof.
  destruct a, b, c; simpl; rewrite ?Z.leb_le; try done. lia.
Qed.

Lemma sqlite_leb_total a b : sqlite_leb a b = false -> sqlite_leb b a = true.
Proof.
  destruct a, b; simpl; rewrite ?Z.leb_le, ?Z.leb_gt; try done. lia.
Qed.

(** The first row of the ordered column is a greatest element of it. *)
Lemma head_order_by_desc column :
  match head (order_by_desc column) with
  | None => column = []
  | Some top => top ∈ column /\ forall v, v ∈ column -> sqlite_leb v top = true
  end.
Proof.
  induction column as [|x column IH]; [done|].
  unfold order_by_desc in *. simpl. rewrite head_insert_desc.
  destruct (head (foldr insert_desc [] column)) as [y|].
  - destruct IH as [Hy Hmax]. destruct (sqlite_leb y x) eqn:Hyx.
    + split; [left|]. intros v [->|Hv]%elem_of_cons; [apply sqlite_leb_refl|].
      eapply sqlite_leb_trans; [by apply Hmax | done].
    + split; [by right|]. intros v [->|Hv]%elem_of_cons; [|by apply Hmax].
      by apply sqlite_leb_total.
  - subst column. split; [left|].
    intros v Hv%list_elem_of_singleton. subst. apply sqlite_leb_refl.
Qed.

Lemma check_update_cooldown_returns env w :
  check_update_cooldown env w = (Return (permitted env (pending w)), w).
Proof.
  unfold permitted, get_db, check_update_cooldown, query_updated_at_desc_first.
  unfold mbind, M_bind, mret, M_ret. simpl.
  by destruct (head (order_by_desc (updated_at <$> cities (pending w)))) as [[last|]|].
Qed.

(** The gate in terms of the column it reads. *)
Lemma permitted_iff env db :
  permitted env db = true <->
  Forall (fun t => t = None) (updated_at <$> cities db) \/
  exists latest,
    Some latest ∈ updated_at <$> cities db /\
    (forall t, Some t ∈ updated_at <$> cities db -> t <= latest) /\
    (900 <= total_seconds (now_cooldown env - latest)%Z)%Q.
Proof.
  unfold permitted, get_db, check_update_cooldown, query_updated_at_desc_first.
  unfold mbind, M_bind, mret, M_ret. simpl.
  pose proof (head_order_by_desc (updated_at <$> cities db)) as Hhead.
  destruct (head (order_by_desc (updated_at <$> cities db))) as [[last|]|]; simpl.
  - destruct Hhead as [Hin Hmax]. rewrite total_seconds_ge_900, <- total_seconds_Qle_900.
    split.
    + intros Hlate. right. exists last. split; [done|]. split; [|done].
      intros t Ht. specialize (Hmax _ Ht). simpl in Hmax. by apply Z.leb_le.
    + intros [Hnone|(latest & Hl & Hle & Hlate)].
      * rewrite Forall_forall in Hnone. by specialize (Hnone _ Hin).
      * specialize (Hmax _ Hl). simpl in Hmax. apply Z.leb_le in Hmax.
        specialize (Hle _ Hin). by replace last with latest by lia.
  - destruct Hhead as [_ Hmax]. split; [|done]. intros _. left.
    apply Forall_forall. intros [t|] Ht; [|done].
    specialize (Hmax _ Ht). done.
  - rewrite Hhead. split; [|done]. intros _. left. constructor.
Qed.

(** ** gather *)

Lemma first_raised_None {A} (settled : list (nat * result A)) :
  first_raised settled = None ->
  Forall2 (fun s a => snd s = Return a) settled (omap value_of settled).
Proof.
  induction settled as [|[n [a|e]] rest IH]; simpl; intros Hnone.
  - constructor.
  - unfold value_of at 1. simpl. constructor; [done | by apply IH].
  - destruct (first_raised rest) as [[m e']|]; [|done].
    by destruct (m <? n)%nat.
Qed.

Lemma first_raised_Some {A} (settled : list (nat * result A)) n e :
  first_raised settled = Some (n, e) -> (n, Raise e) ∈ settled.
Proof.
  revert n e. induction settled as [|[n' [a|e']] rest IH]; simpl; intros n e Hsome.
  - done.
  - right. by apply IH.
  - destruct (first_raised rest) as [[m e'']|].
    + destruct (m <? n')%nat; simplify_eq; [right; by apply IH | left].
    + simplify_eq. left.
Qed.

Lemma first_raised_is_Some {A} (settled : list (nat * result A)) n e :
  (n, Raise e) ∈ settled -> is_Some (first_raised settled).
Proof.
  induction settled as [|[n' [a|e']] rest IH]; simpl.
  - by intros ?%elem_of_nil.
  - intros [?|Hin]%elem_of_cons; [done | by apply IH].
  - intros _. destruct (first_raised rest) as [[m e'']|]; [|done].
    by destruct (m <? n')%nat.
Qed.

Lemma outcomes_lookup env rows k :
  outcomes env rows !! k = (fun c => (settles env k, fetch_outcome env k c)) <$> rows !! k.
Proof. unfold outcomes. apply list_lookup_imap. Qed.

Lemma outcomes_length env rows : length (outcomes env rows) = length rows.
Proof. unfold outcomes. apply length_imap. Qed.

(** ** The refresh, case by case *)

(** What the flush of the objects a refresh has assigned comes to. *)
Lemma flush_assign_nil env rows now :
  mapM (fun obj => obj) (assign env rows [] now) = Return rows.
Proof.
  assert (assign env rows [] now = Return <$> rows) as -> by (by destruct rows).
  induction rows as [|c rows IH]; [done|].
  rewrite fmap_cons. cbn [mapM]. rewrite IH. done.
Qed.

Lemma flush_assign_cons env c rows t temps now :
  mapM (fun obj => obj) (assign env (c :: rows) (t :: temps) now) =
  match bind_temperature env t with
  | Return stored_temp =>
      match mapM (fun obj => obj) (assign env rows temps now) with
      | Return rows' => Return (refreshed stored_temp now c :: rows')
      | Raise e => Raise e
      end
  | Raise e => Raise e
  end.
Proof.
  simpl. destruct (bind_temperature env t) as [stored_temp|e]; simpl; [|done].
  by destruct (mapM _ (assign env rows temps now)).
Qed.

Lemma flush_assign_Return env rows temps now rows' :
  mapM (fun obj => obj) (assign env rows temps now) = Return rows' ->
  length rows' = length rows /\
  forall k c t, rows !! k = Some c -> temps !! k = Some t ->
    exists stored_temp,
      bind_temperature env t = Return stored_temp /\
      rows' !! k = Some (refreshed stored_temp now c).
Proof.
  revert temps rows'. induction rows as [|c rows IH]; intros temps rows'.
  - destruct temps; simpl; intros [= <-]; by split.
  - destruct temps as [|t temps].
    + rewrite flush_assign_nil. intros [= <-]. split; [done|]. by intros k c' t' _ ?.
    + rewrite flush_assign_cons.
      destruct (bind_temperature env t) as [stored_temp|e] eqn:Hbind; [|done].
      destruct (mapM _ (assign env rows temps now)) as [rows1|e] eqn:Hrows; [|done].
      intros [= <-]. destruct (IH _ _ Hrows) as [Hlen Hlookup].
      split; [simpl; by rewrite Hlen|].
      intros [|k] c' t'; simpl.
      * intros [= <-] [= <-]. by exists stored_temp.
      * apply Hlookup.
Qed.

Lemma flush_assign_storable env rows temps now :
  length temps = length rows ->
  (forall k c t, rows !! k = Some c -> temps !! k = Some t ->
     exists stored_temp, bind_temperature env t = Return stored_temp) ->
  exists rows', mapM (fun obj => obj) (assign env rows temps now) = Return rows'.
Proof.
  revert temps. induction rows as [|c rows IH]; intros [|t temps] Hlen Hall;
    simpl in Hlen; try done.
  - by exists [].
  - rewrite flush_assign_cons.
    destruct (Hall 0%nat c t eq_refl eq_refl) as [stored_temp ->].
    destruct (IH temps) as [rows' ->]; [lia | |by eexists].
    intros k c' t'. apply (Hall (S k)).
Qed.

Lemma flush_assign_columns env rows temps now rows' :
  mapM (fun obj => obj) (assign env rows temps now) = Return rows' ->
  (fun c => (id c, name c, latitude c, longitude c)) <$> rows'
  = (fun c => (id c, name c, latitude c, longitude c)) <$> rows.
Proof.
  revert temps rows'. induction rows as [|c rows IH]; intros temps rows'.
  - destruct temps; simpl; by intros [= <-].
  - destruct temps as [|t temps].
    + rewrite flush_assign_nil. by intros [= <-].
    + rewrite flush_assign_cons.
      destruct (bind_temperature env t) as [stored_temp|e]; [|done].
      destruct (mapM _ (assign env rows temps now)) as [rows1|e] eqn:Hrows; [|done].
      intros [= <-]. rewrite !fmap_cons. simpl. f_equal. by eapply IH.
Qed.

Lemma update_weather_run env db :
  get_db (update_weather env) db =
  if negb (permitted env db) then
    {| returned := Raise CooldownActive; store := db; fetched := [] |}
  else if bool_decide (cities db = []) then
    {| returned := Raise NoCities; store := db; fetched := [] |}
  else
    match first_raised (outcomes env (cities db)) with
    | Some (_, e) =>
        {| returned := Raise e; store := db; fetched := coordinates (cities db) |}
    | None =>
        match mapM (fun obj => obj)
                (assign env (cities db) (omap value_of (outcomes env (cities db)))
                   (now_update env (cities db))) with
        | Return rows =>
            {| returned := Return redirect_home; store := with_cities rows db;
               fetched := coordinates (cities db) |}
        | Raise e =>
            {| returned := Raise e; store := db; fetched := coordinates (cities db) |}
        end
    end.
Proof.
  unfold get_db, update_weather.
  unfold mbind at 1. unfold M_bind at 1.
  rewrite check_update_cooldown_returns. simpl.
  destruct (permitted env db); simpl; [|done].
  unfold mbind at 1. unfold M_bind at 1. unfold query_City_all at 1. simpl.
  case_bool_decide; simpl; [done|].
  unfold mbind at 1. unfold M_bind at 1. unfold try_except, gather. simpl.
  rewrite imap_fmap, <- list_fmap_compose.
  change (imap _ (cities db)) with (outcomes env (cities db)).
  change (_ <$> cities db) with (coordinates (cities db)).
  destruct (first_raised (outcomes env (cities db))) as [[n e]|]; simpl.
  - by destruct e.
  - unfold mbind at 1. unfold M_bind at 1. unfold mutate at 1. simpl.
    unfold mbind at 1. unfold M_bind at 1. unfold commit. simpl.
    destruct (mapM _ (assign env _ _ _)) as [rows|e]; simpl; [|done].
    unfold mbind, result_bind. simpl. done.
Qed.

Lemma gate_returns env db :
  returned (get_db (check_update_cooldown env) db) = Return (permitted env db).
Proof.
  unfold permitted. unfold get_db at 1 2.
  by rewrite check_update_cooldown_returns.
Qed.

(** Every task returned: gather hands back one value per row. *)
Lemma gathered env rows :
  (forall k c, rows !! k = Some c -> exists t, fetch_outcome env k c = Return t) ->
  first_raised (outcomes env rows) = None.
Proof.
  intros Hall. destruct (first_raised (outcomes env rows)) as [[n e]|] eqn:Hfirst; [|done].
  apply first_raised_Some, list_elem_of_lookup in Hfirst as [k Hk].
  rewrite outcomes_lookup in Hk. destruct (rows !! k) as [c|] eqn:Hc; [|done].
  destruct (Hall _ _ Hc) as [t Ht]. simpl in Hk. congruence.
Qed.

Lemma gathered_lookup env rows k c :
  first_raised (outcomes env rows) = None -> rows !! k = Some c ->
  exists t, fetch_outcome env k c = Return t /\
            omap value_of (outcomes env rows) !! k = Some t.
Proof.
  intros Hnone%first_raised_None Hc.
  assert (outcomes env rows !! k = Some (settles env k, fetch_outcome env k c)) as Hk
    by (by rewrite outcomes_lookup, Hc).
  destruct (Forall2_lookup_l _ _ _ _ _ Hnone Hk) as (t & Ht & Hret).
  by exists t.
Qed.

Lemma gathered_length env rows :
  first_raised (outcomes env rows) = None ->
  length (omap value_of (outcomes env rows)) = length rows.
Proof.
  intros Hnone%first_raised_None. apply Forall2_length in Hnone.
  by rewrite <- Hnone, outcomes_length.
Qed.

(** The exception gather raises is the one some task of the refresh raised. *)
Lemma raised_by_a_task env rows n e :
  first_raised (outcomes env rows) = Some (n, e) ->
  exists k c, rows !! k = Some c /\ fetch_outcome env k c = Raise e.
Proof.
  intros [k Hk]%first_raised_Some%list_elem_of_lookup.
  rewrite outcomes_lookup in Hk. destruct (rows !! k) as [c|] eqn:Hc; [|done].
  exists k, c. simpl in Hk. split; congruence.
Qed.

Lemma a_task_raised env rows k c e :
  rows !! k = Some c -> fetch_outcome env k c = Raise e ->
  is_Some (first_raised (outcomes env rows)).
Proof.
  intros Hc He. apply (first_raised_is_Some _ (settles env k) e).
  apply list_elem_of_lookup. exists k. by rewrite outcomes_lookup, Hc, <- He.
Qed.

(** The whole of a successful cycle: the rows the commit stores. *)
Lemma update_weather_success env db :
  permitted env db = true -> cities db <> [] ->
  (forall k c, cities db !! k = Some c ->
     exists t stored_temp,
       fetch_outcome env k c = Return t /\
       bind_temperature env t = Return stored_temp) ->
  exists rows,
    get_db (update_weather env) db =
    {| returned := Return redirect_home; store := with_cities rows db;
       fetched := coordinates (cities db) |} /\
    length rows = length (cities db) /\
    forall k c, cities db !! k = Some c ->
      exists t stored_temp,
        fetch_outcome env k c = Return t /\
        bind_temperature env t = Return stored_temp /\
        rows !! k = Some (refreshed stored_temp (now_update env (cities db)) c).
Proof.
  intros Hgate Hrows Hall. rewrite update_weather_run, Hgate. simpl.
  rewrite bool_decide_eq_false_2 by done.
  assert (first_raised (outcomes env (cities db)) = None) as Hnone.
  { apply gathered. intros k c Hc. destruct (Hall k c Hc) as (t & _ & Ht & _). eauto. }
  rewrite Hnone.
  destruct (flush_assign_storable env (cities db)
              (omap value_of (outcomes env (cities db))) (now_update env (cities db)))
    as [rows Hflush].
  { by apply gathered_length. }
  { intros k c t Hc Ht. destruct (Hall k c Hc) as (t' & stored_temp & Ht' & Hbind).
    destruct (gathered_lookup env (cities db) k c Hnone Hc) as (t'' & Ht'' & Hk).
    exists stored_temp. congruence. }
  rewrite Hflush. exists rows. split; [done|].
  destruct (flush_assign_Return _ _ _ _ _ Hflush) as [Hlen Hlookup].
  split; [done|]. intros k c Hc.
  destruct (gathered_lookup env (cities db) k c Hnone Hc) as (t & Ht & Hk).
  destruct (Hlookup k c t Hc Hk) as (stored_temp & Hbind & Hrow).
  by exists t, stored_temp.
Qed.

(** What a refresh that answered had met: an open gate, a city, tasks that
    all returned values the column took. *)
Lemma update_weather_returned env db r :
  returned (get_db (update_weather env) db) = Return r ->
  permitted env db = true /\ cities db <> [] /\
  forall k c, cities db !! k = Some c ->
    exists t stored_temp,
      fetch_outcome env k c = Return t /\
      bind_temperature env t = Return stored_temp.
Proof.
  rewrite update_weather_run.
  destruct (permitted env db); simpl; [|done].
  case_bool_decide as Hrows; simpl; [done|].
  destruct (first_raised (outcomes env (cities db))) as [[n e]|] eqn:Hfirst; simpl; [done|].
  destruct (mapM _ (assign env _ _ _)) as [rows|e] eqn:Hflush; simpl; [|done].
  intros _. split; [done|]. split; [done|]. intros k c Hc.
  destruct (gathered_lookup env (cities db) k c Hfirst Hc) as (t & Ht & Hk).
  destruct (flush_assign_Return _ _ _ _ _ Hflush) as [_ Hlookup].
  destruct (Hlookup k c t Hc Hk) as (stored_temp & Hbind & _).
  by exists t, stored_temp.
Qed.

Lemma update_weather_success_stamp env db :
  permitted env db = true -> cities db <> [] ->
  (forall k c, cities db !! k = Some c ->
     exists t stored_temp,
       fetch_outcome env k c = Return t /\
       bind_temperature env t = Return stored_temp) ->
  Forall (fun c => updated_at c = Some (now_update env (cities db)))
         (cities (store (get_db (update_weather env) db))).
Proof.
  intros Hgate Hrows Hall.
  destruct (update_weather_success env db Hgate Hrows Hall) as (rows & -> & Hlen & Hlookup).
  simpl. apply Forall_lookup. intros k c' Hc'.
  assert (is_Some (cities db !! k)) as [c Hc].
  { apply lookup_lt_is_Some. apply lookup_lt_Some in Hc'. by rewrite <- Hlen. }
  destruct (Hlookup k c Hc) as (t & stored_temp & _ & _ & Hk).
  rewrite Hk in Hc'. by simplify_eq.
Qed.


Lemma gate_open env db :
  returned (get_db (check_update_cooldown env) db) = Return true ->
  permitted env db = true.
Proof. rewrite gate_returns. congruence. Qed.

Lemma gate_shut env db :
  returned (get_db (check_update_cooldown env) db) = Return false ->
  permitted env db = false.
Proof. rewrite gate_returns. congruence. Qed.

(** ** The refresh: its answers and what it leaves in the store *)

(** C2. The cooldown gate always answers, changes nothing, and answers
    [True] exactly when every [updated_at] it reads is unset (as for no city
    at all) or the clock is at least 900 seconds past the greatest set one;
    900 seconds sharp is let through. *)
Theorem check_update_cooldown_permits (env : Env) (w : World) :
  (check_update_cooldown env w = (Return true, w) \/
   check_update_cooldown env w = (Return false, w)) /\
  (check_update_cooldown env w = (Return true, w) <->
   Forall (fun t => t = None) (updated_at <$> cities (pending w)) \/
   exists latest,
     Some latest ∈ updated_at <$> cities (pending w) /\
     (forall t, Some t ∈ updated_at <$> cities (pending w) -> t <= latest) /\
     (900 <= total_seconds (now_cooldown env - latest)%Z)%Q).
Proof.
  rewrite check_update_cooldown_returns, <- permitted_iff.
  destruct (permitted env (pending w)); split; auto; split; congruence.
Qed.

(** The boundary and its neighbour, on the three cities refreshed at 1000
    microseconds. *)
Example cooldown_boundary :
  let db := store (get_db (update_weather (mock_env (weather 15.0) 1000)) three_cities) in
  permitted (mock_env (weather 15.0) 900001000) db = true /\
  permitted (mock_env (weather 15.0) 900000999) db = false.
Proof. vm_compute. done. Qed.

(** C4. A refresh the cooldown gate refuses answers CooldownActive, sends
    no request and leaves the store as it was. *)
Theorem update_weather_cooldown_active (env : Env) (db : Database) :
  returned (get_db (check_update_cooldown env) db) = Return false ->
  get_db (update_weather env) db =
  {| returned := Raise CooldownActive; store := db; fetched := [] |}.
Proof.
  intros Hgate%gate_shut. by rewrite update_weather_run, Hgate.
Qed.

Lemma update_weather_cooldown_active_witness :
  get_db (update_weather (mock_env (weather 15.0) 2000)) refreshed_cities =
  {| returned := Raise CooldownActive; store := refreshed_cities; fetched := [] |}.
Proof.
  apply (update_weather_cooldown_active (mock_env (weather 15.0) 2000) refreshed_cities).
  vm_compute. reflexivity.
Defined.

(** C9. A refresh of a store without cities answers NoCities, sends no
    request and writes nothing; the gate always lets such a store through. *)
Theorem update_weather_no_cities (env : Env) (db : Database) :
  cities db = [] ->
  returned (get_db (check_update_cooldown env) db) = Return true /\
  get_db (update_weather env) db =
  {| returned := Raise NoCities; store := db; fetched := [] |}.
Proof.
  intros Hrows.
  assert (permitted env db = true) as Hgate.
  { apply permitted_iff. left. rewrite Hrows. constructor. }
  split; [by rewrite gate_returns, Hgate|].
  rewrite update_weather_run, Hgate. simpl.
  by rewrite bool_decide_eq_true_2.
Qed.

Lemma update_weather_no_cities_witness :
  returned (get_db (check_update_cooldown (mock_env (weather 15.0) 1000)) no_cities)
  = Return true /\
  get_db (update_weather (mock_env (weather 15.0) 1000)) no_cities =
  {| returned := Raise NoCities; store := no_cities; fetched := [] |}.
Proof.
  apply (update_weather_no_cities (mock_env (weather 15.0) 1000) no_cities).
  reflexivity.
Defined.

(** Over every cycle: the store is left as it was, or every row of it
    carries what the column made of the value fetched for it and the one
    timestamp of the cycle. *)
Lemma update_weather_atomic (env : Env) (db : Database) :
  store (get_db (update_weather env) db) = db \/
  (length (cities (store (get_db (update_weather env) db))) = length (cities db) /\
   forall k c, cities db !! k = Some c ->
     exists temp stored_temp,
       fetch_outcome env k c = Return temp /\
       bind_temperature env temp = Return stored_temp /\
       cities (store (get_db (update_weather env) db)) !! k
       = Some (refreshed stored_temp (now_update env (cities db)) c)).
Proof.
  destruct (returned (get_db (update_weather env) db)) as [r|e] eqn:Hret.
  - right. apply update_weather_returned in Hret as (Hgate & Hrows & Hall).
    destruct (update_weather_success env db Hgate Hrows Hall) as (rows & -> & Hlen & Hlookup).
    by split.
  - left. revert Hret. rewrite update_weather_run.
    destruct (permitted env db); simpl; [|done].
    case_bool_decide; simpl; [done|].
    destruct (first_raised (outcomes env (cities db))) as [[n e']|]; [done|].
    by destruct (mapM _ (assign env _ _ _)).
Qed.

(** C1. In a refresh cycle (the gate is open) where the fetch for some city
    fails, the refresh raises the exception of a fetch that failed and the
    store is left as it was, no row written; and whatever the cycle, the
    store is left as it was or every row of it is updated. *)
Theorem update_weather_all_or_nothing (env : Env) (db : Database) :
  (forall k c e,
     returned (get_db (check_update_cooldown env) db) = Return true ->
     cities db !! k = Some c ->
     fetch_outcome env k c = Raise e ->
     (exists k' c' e',
        cities db !! k' = Some c' /\ fetch_outcome env k' c' = Raise e' /\
        returned (get_db (update_weather env) db) = Raise e') /\
     store (get_db (update_weather env) db) = db) /\
  (store (get_db (update_weather env) db) = db \/
   (length (cities (store (get_db (update_weather env) db))) = length (cities db) /\
    forall k c, cities db !! k = Some c ->
      exists temp stored_temp,
        fetch_outcome env k c = Return temp /\
        bind_temperature env temp = Return stored_temp /\
        cities (store (get_db (update_weather env) db)) !! k
        = Some (refreshed stored_temp (now_update env (cities db)) c))).
Proof.
  split; [|apply update_weather_atomic].
  intros k c e Hgate%gate_open Hc He.
  assert (cities db <> []) as Hrows by (intros Hnil; by rewrite Hnil in Hc).
  rewrite update_weather_run, Hgate. simpl.
  rewrite bool_decide_eq_false_2 by done.
  destruct (a_task_raised env (cities db) k c e Hc He) as [[n e'] Hfirst].
  rewrite Hfirst. simpl. split; [|done].
  destruct (raised_by_a_task _ _ _ _ Hfirst) as (k' & c' & Hc' & He').
  by exists k', c', e'.
Qed.

(** Berlin's fetch fails among the three cities. *)
Lemma update_weather_all_or_nothing_witness :
  let env := mock_env (Raised (ClientError "Cannot connect to host")) 1000 in
  (exists k' c' e',
      cities three_cities !! k' = Some c' /\ fetch_outcome env k' c' = Raise e' /\
      returned (get_db (update_weather env) three_cities) = Raise e') /\
  store (get_db (update_weather env) three_cities) = three_cities.
Proof.
  apply (proj1 (update_weather_all_or_nothing
                  (mock_env (Raised (ClientError "Cannot connect to host")) 1000)
                  three_cities)
           1%nat (city 2 "Berlin" 52.52 13.4) (NetworkError "Cannot connect to host")).
  - vm_compute. reflexivity.
  - reflexivity.
  - vm_compute. reflexivity.
Defined.



(** C10. In such a cycle the row at each position keeps its identity and
    coordinates and gets the temperature that the fetch for that very row
    returned, as the column stores it (a float that is not NaN as it is):
    results and rows are paired by position. *)
Theorem update_weather_pairs_by_position (env : Env) (db : Database)
    (k : nat) (c : City) (temp : value) :
  returned (get_db (check_update_cooldown env) db) = Return true ->
  (forall k c, cities db !! k = Some c ->
     exists t stored_temp,
       fetch_outcome env k c = Return t /\
       bind_temperature env t = Return stored_temp) ->
  cities db !! k = Some c ->
  fetch_outcome env k c = Return temp ->
  exists c', cities (store (get_db (update_weather env) db)) !! k = Some c' /\
    id c' = id c /\ name c' = name c /\
    latitude c' = latitude c /\ longitude c' = longitude c /\
    bind_temperature env temp = Return (temperature c') /\
    (forall x, temp = VFloat x -> PrimFloat.is_nan x = false ->
               temperature c' = Some x).
Proof.
  intros Hgate%gate_open Hall Hc Htemp.
  assert (cities db <> []) as Hrows by (intros Hnil; by rewrite Hnil in Hc).
  destruct (update_weather_success env db Hgate Hrows Hall) as (rows & -> & Hlen & Hlookup).
  destruct (Hlookup k c Hc) as (t & stored_temp & Ht & Hbind & Hk).
  assert (t = temp) as -> by congruence.
  eexists. split; [exact Hk|]. simpl. repeat (split; [done|]).
  intros x -> Hnan. simpl in Hbind. rewrite Hnan in Hbind. congruence.
Qed.

(** The three cities: Paris gets 10.0, Berlin 15.0, Rome 20.0. *)
Lemma update_weather_pairs_by_position_witness :
  let after := cities (store (get_db (update_weather (mock_env (weather 15.0) 1000))
                                three_cities)) in
  (exists c', after !! 0%nat = Some c' /\
     id c' = 1 /\ name c' = "Paris" /\
     latitude c' = 48.85%float /\ longitude c' = 2.35%float /\
     temperature c' = Some 10.0%float) /\
  (exists c', after !! 1%nat = Some c' /\
     id c' = 2 /\ name c' = "Berlin" /\
     latitude c' = 52.52%float /\ longitude c' = 13.4%float /\
     temperature c' = Some 15.0%float) /\
  (exists c', after !! 2%nat = Some c' /\
     id c' = 3 /\ name c' = "Rome" /\
     latitude c' = 41.9%float /\ longitude c' = 12.5%float /\
     temperature c' = Some 20.0%float).
Proof.
  repeat split.
  - destruct (update_weather_pairs_by_position (mock_env (weather 15.0) 1000) three_cities
                0%nat (city 1 "Paris" 48.85 2.35) (VFloat 10.0))
      as (c' & Hk & Hid & Hname & Hlat & Hlon & _ & Hfloat);
      [vm_compute; reflexivity | by_position | reflexivity | vm_compute; reflexivity |].
    exists c'. repeat (split; [assumption|]). apply Hfloat; reflexivity.
  - destruct (update_weather_pairs_by_position (mock_env (weather 15.0) 1000) three_cities
                1%nat (city 2 "Berlin" 52.52 13.4) (VFloat 15.0))
      as (c' & Hk & Hid & Hname & Hlat & Hlon & _ & Hfloat);
      [vm_compute; reflexivity | by_position | reflexivity | vm_compute; reflexivity |].
    exists c'. repeat (split; [assumption|]). apply Hfloat; reflexivity.
  - destruct (update_weather_pairs_by_position (mock_env (weather 15.0) 1000) three_cities
                2%nat (city 3 "Rome" 41.9 12.5) (VFloat 20.0))
      as (c' & Hk & Hid & Hname & Hlat & Hlon & _ & Hfloat);
      [vm_compute; reflexivity | by_position | reflexivity | vm_compute; reflexivity |].
    exists c'. repeat (split; [assumption|]). apply Hfloat; reflexivity.
Defined.

(** The scenario in full: Paris 10.0, Berlin 15.0, Rome 20.0, one
    timestamp. *)
Example three_cities_refreshed :
  get_db (update_weather (mock_env (weather 15.0) 1000)) three_cities =
  {| returned := Return redirect_home;
     store := {| cities := [refreshed (Some 10.0%float) 1000 (city 1 "Paris" 48.85 2.35);
                            refreshed (Some 15.0%float) 1000 (city 2 "Berlin" 52.52 13.4);
                            refreshed (Some 20.0%float) 1000 (city 3 "Rome" 41.9 12.5)];
                 default_cities := [] |};
     fetched := [(48.85, 2.35); (52.52, 13.4); (41.9, 12.5)]%float |}.
Proof. vm_compute. reflexivity. Qed.

(** The same with Berlin's fetch failing: nothing is written, the failure
    is the answer. *)
Example three_cities_berlin_fails :
  get_db (update_weather (mock_env (Raised (ClientError "Cannot connect to host")) 1000))
         three_cities =
  {| returned := Raise (NetworkError "Cannot connect to host");
     store := three_cities;
     fetched := [(48.85, 2.35); (52.52, 13.4); (41.9, 12.5)]%float |}.
Proof. vm_compute. reflexivity. Qed.

(** C6, as stated, fails: the answer of a successful refresh is the same
    redirect for one city and for three, so no count can be read off it. *)
Lemma success_answer_carries_no_count :
  ~ exists count : RedirectResponse -> nat,
      forall env db r,
        returned (get_db (update_weather env) db) = Return r ->
        count r = length (cities db).
Proof.
  intros [count Hcount].
  assert (count redirect_home = 3%nat) as H3.
  { apply (Hcount (mock_env (weather 15.0) 1000) three_cities). vm_compute. reflexivity. }
  assert (count redirect_home = 1%nat) as H1.
  { apply (Hcount (mock_env (weather 15.0) 1000) one_city). vm_compute. reflexivity. }
  congruence.
Qed.

(** C6, amended. A fully successful cycle answers with the redirect to "/"
    (status 303), whatever the number of cities; the rows it has updated are
    all the rows of the store, as many as there were: each carries the
    cycle's [updated_at]. *)
Theorem update_weather_success_redirects (env : Env) (db : Database) :
  returned (get_db (check_update_cooldown env) db) = Return true ->
  cities db <> [] ->
  (forall k c, cities db !! k = Some c ->
     exists t stored_temp,
       fetch_outcome env k c = Return t /\
       bind_temperature env t = Return stored_temp) ->
  returned (get_db (update_weather env) db)
  = Return {| url := "/"; response_status_code := 303 |} /\
  length (cities (store (get_db (update_weather env) db))) = length (cities db) /\
  Forall (fun c => updated_at c = Some (now_update env (cities db)))
         (cities (store (get_db (update_weather env) db))).
Proof.
  intros Hgate%gate_open Hrows Hall.
  pose proof (update_weather_success_stamp env db Hgate Hrows Hall) as Hstamp.
  destruct (update_weather_success env db Hgate Hrows Hall) as (rows & Hrun & Hlen & _).
  rewrite Hrun in *. by simpl in *.
Qed.

Lemma update_weather_success_redirects_witness :
  let run := get_db (update_weather (mock_env (weather 15.0) 1000)) three_cities in
  returned run = Return {| url := "/"; response_status_code := 303 |} /\
  length (cities (store run)) = 3%nat /\
  Forall (fun c => updated_at c = Some 1000) (cities (store run)).
Proof.
  apply (update_weather_success_redirects (mock_env (weather 15.0) 1000) three_cities).
  - vm_compute. reflexivity.
  - discriminate.
  - by_position.
Defined.

(** C8. After a refresh that succeeded, writing the timestamp
    [now_update env1 (cities db)], a refresh whose gate reads the clock less
    than 900 seconds past that timestamp answers CooldownActive, sends no
    request and leaves the store as the first refresh left it. *)
Theorem update_weather_within_cooldown (env1 env2 : Env) (db : Database)
    (r : RedirectResponse) :
  returned (get_db (update_weather env1) db) = Return r ->
  (total_seconds (now_cooldown env2 - now_update env1 (cities db))%Z < 900)%Q ->
  get_db (update_weather env2) (store (get_db (update_weather env1) db)) =
  {| returned := Raise CooldownActive;
     store := store (get_db (update_weather env1) db);
     fetched := [] |}.
Proof.
  intros (Hgate & Hrows & Hall)%update_weather_returned Hsoon.
  pose proof (update_weather_success_stamp env1 db Hgate Hrows Hall) as Hstamp.
  assert (cities (store (get_db (update_weather env1) db)) <> []) as Hrows'.
  { destruct (update_weather_success env1 db Hgate Hrows Hall) as (rows & -> & Hlen & _).
    simpl. intros ->. by destruct (cities db). }
  set (db1 := store (get_db (update_weather env1) db)) in *.
  rewrite update_weather_run.
  destruct (permitted env2 db1) eqn:Hgate2; [|done].
  exfalso. apply permitted_iff in Hgate2 as [Hnone|(latest & Hin & _ & Hlate)].
  - destruct (cities db1) as [|c rows]; [done|].
    apply Forall_cons_1 in Hstamp as [Hc _]. apply Forall_cons_1 in Hnone as [Hc' _].
    congruence.
  - apply list_elem_of_fmap in Hin as (c & Hlatest & Hc).
    rewrite Forall_forall in Hstamp. specialize (Hstamp _ Hc).
    assert (latest = now_update env1 (cities db)) as -> by congruence.
    by apply Qle_not_lt in Hlate.
Qed.

(** The three cities refreshed at 1000 microseconds; a second refresh one
    microsecond short of 900 seconds later. *)
Lemma update_weather_within_cooldown_witness :
  get_db (update_weather (mock_env (weather 15.0) 900000999))
         (store (get_db (update_weather (mock_env (weather 15.0) 1000)) three_cities)) =
  {| returned := Raise CooldownActive;
     store := store (get_db (update_weather (mock_env (weather 15.0) 1000)) three_cities);
     fetched := [] |}.
Proof.
  apply (update_weather_within_cooldown (mock_env (weather 15.0) 1000)
           (mock_env (weather 15.0) 900000999) three_cities redirect_home).
  - vm_compute. reflexivity.
  - vm_compute. reflexivity.
Defined.

(** ** The failures of one fetch *)

(** X1. An answer with a status other than 200, so any status that is not
    a success, is UpstreamUnavailable: [HTTPException] 503 with the status
    in its detail. *)
Lemma fetch_weather_status (latitude longitude : float) (status : Z)
    (response_data : value) :
  status <> 200 ->
  resume (fetch_weather latitude longitude) (Responded status response_data)
  = Raise (UpstreamUnavailable status).
Proof. intros Hstatus. simpl. by rewrite bool_decide_eq_true_2. Qed.

Lemma fetch_weather_status_witness :
  resume (fetch_weather 52.52 13.4) (Responded 503 (VDict ∅))
  = Raise (HTTPException 503 "天气API请求失败，状态码：503").
Proof. apply (fetch_weather_status 52.52 13.4 503 (VDict ∅)). lia. Defined.

(** X2. A failure of the transport that aiohttp raises as a [ClientError]
    (connection refused, DNS failure) is NetworkError: [HTTPException] 500
    with [str(e)] in its detail. *)
Lemma fetch_weather_client_error (latitude longitude : float) (str : string) :
  resume (fetch_weather latitude longitude) (Raised (ClientError str))
  = Raise (NetworkError str).
Proof. reflexivity. Qed.

(** X3. A 200 answer that is a JSON object without ["current_weather"] is
    MalformedResponse naming current_weather; one whose ["current_weather"]
    is an object without ["temperature"] is MalformedResponse naming
    temperature: [HTTPException] 500 with the missing key in its detail. *)
Lemma fetch_weather_missing_field (latitude longitude : float)
    (response_data : gmap string value) :
  (response_data !! "current_weather" = None ->
   resume (fetch_weather latitude longitude) (Responded 200 (VDict response_data))
   = Raise (MalformedResponse "current_weather")) /\
  (forall current_weather,
     response_data !! "current_weather" = Some (VDict current_weather) ->
     current_weather !! "temperature" = None ->
     resume (fetch_weather latitude longitude) (Responded 200 (VDict response_data))
     = Raise (MalformedResponse "temperature")).
Proof.
  split.
  - intros Hmissing. simpl. unfold subscript. by rewrite Hmissing.
  - intros current_weather Hcw Hmissing. simpl. unfold subscript at 1.
    rewrite Hcw. simpl. unfold subscript. by rewrite Hmissing.
Qed.

Lemma fetch_weather_missing_field_witness :
  resume (fetch_weather 52.52 13.4)
         (Responded 200 (VDict {[ "current_weather" := VDict ∅ ]}))
  = Raise (HTTPException 500 "API响应数据格式错误：缺少'temperature'字段").
Proof.
  apply (proj2 (fetch_weather_missing_field 52.52 13.4 {[ "current_weather" := VDict ∅ ]})
           ∅).
  - vm_compute. reflexivity.
  - vm_compute. reflexivity.
Defined.

(** C5 at a request that exceeds the 10 seconds of
    [ClientTimeout(total=10)]: aiohttp raises [asyncio.TimeoutError], no
    [except] clause of [fetch_weather] takes it, and it leaves the fetch and
    the refresh as it is, not as the NetworkError of the [ClientError]
    clause. *)
Theorem fetch_weather_total_timeout (latitude longitude : float) :
  resume (fetch_weather latitude longitude) (Raised TimeoutError) = Raise TimeoutError /\
  (forall str, resume (fetch_weather latitude longitude) (Raised TimeoutError)
               <> Raise (NetworkError str)) /\
  returned (get_db (update_weather (mock_env (Raised TimeoutError) 1000)) three_cities)
  = Raise TimeoutError.
Proof.
  split; [done|]. split; [done|]. vm_compute. reflexivity.
Qed.

(** C7 at a 200 answer whose temperature is null: [fetch_weather] returns
    [None] without raising, and the refresh commits Berlin's row with the
    temperature unset and [updated_at] set, in a store where temperature
    and [updated_at] were unset together before. *)
Theorem update_weather_null_temperature :
  let null := Responded 200 (VDict {[ "current_weather" :=
                                        VDict {[ "temperature" := VNone ]} ]}) in
  let run := serve (fun s => s) (UpdateWeather (mock_env null 1000)) three_cities in
  resume (fetch_weather 52.52 13.4) null = Return VNone /\
  Forall (fun c => temperature c = None <-> updated_at c = None) (cities three_cities) /\
  returned run = Return redirect_home /\
  cities (store run) !! 1%nat
  = Some {| id := 2; name := "Berlin"; latitude := 52.52; longitude := 13.4;
            temperature := None; updated_at := Some 1000 |} /\
  ~ Forall (fun c => temperature c = None <-> updated_at c = None) (cities (store run)).
Proof.
  split; [vm_compute; reflexivity|].
  split; [repeat constructor; reflexivity|].
  split; [vm_compute; reflexivity|].
  split; [vm_compute; reflexivity|].
  intros Hall. rewrite Forall_lookup in Hall.
  assert (cities (store (serve (fun s => s)
            (UpdateWeather (mock_env (Responded 200 (VDict {[ "current_weather" :=
               VDict {[ "temperature" := VNone ]} ]})) 1000)) three_cities)) !! 1%nat
          = Some {| id := 2; name := "Berlin"; latitude := 52.52; longitude := 13.4;
                    temperature := None; updated_at := Some 1000 |}) as Hberlin
    by (vm_compute; reflexivity).
  destruct (Hall _ _ Hberlin) as [Hset _]. simpl in Hset.
  by specialize (Hset eq_refl).
Qed.

(** ** The routes of the city list, case by case *)

Lemma add_city_run strip name' latitude longitude db :
  get_db (add_city strip name' latitude longitude) db =
  if bool_decide (strip name' ∈ name <$> cities db) then
    {| returned := Raise (HTTPException 400 ("城市「" +:+ name' +:+ "」已存在，不可重复添加"));
       store := db; fetched := [] |}
  else
    {| returned := Return redirect_home;
       store := with_cities (cities db ++ [new_row (next_id (cities db)) (strip name')
                                             latitude longitude]) db;
       fetched := [] |}.
Proof.
  unfold get_db, add_city, query_City_all, mbind, M_bind. simpl.
  case_bool_decide as Hdup; simpl; [done|].
  unfold commit. simpl. unfold insert_row at 1. simpl.
  by rewrite bool_decide_eq_false_2.
Qed.

Lemma remove_city_run city_id db :
  get_db (remove_city city_id) db =
  match filter (fun c => id c = city_id) (cities db) with
  | [] =>
      {| returned := Raise (HTTPException 404 ("城市ID " +:+ pretty city_id +:+ " 不存在，无法删除"));
         store := db; fetched := [] |}
  | found :: _ =>
      {| returned := Return redirect_home;
         store := with_cities (delete_row (id found) (cities db)) db;
         fetched := [] |}
  end.
Proof.
  unfold get_db, remove_city, query_City_all, mbind, M_bind. simpl.
  by destruct (filter _ (cities db)).
Qed.

Lemma for_each_db_add {A} (xs : list A) (make : A -> City) w :
  for_each xs (fun x => db_add (make x)) w =
  (Return tt, {| stored := stored w; pending := pending w; dirty := dirty w;
                 added := added w ++ (make <$> xs); requests := requests w |}).
Proof.
  revert w. induction xs as [|x xs IH]; intros w; simpl.
  - rewrite app_nil_r. by destruct w.
  - unfold mbind, M_bind. simpl. rewrite IH. simpl. by rewrite <- app_assoc.
Qed.

Lemma reset_cities_run db :
  get_db reset_cities db =
  if bool_decide (default_cities db = []) then
    {| returned := Raise (HTTPException 500 "默认城市数据为空，无法重置");
       store := db; fetched := [] |}
  else
    match flush ((fun d => new_row 0 (default_name d) (default_latitude d)
                             (default_longitude d)) <$> default_cities db) [] with
    | Return rows =>
        {| returned := Return redirect_home; store := with_cities rows db; fetched := [] |}
    | Raise e => {| returned := Raise e; store := db; fetched := [] |}
    end.
Proof.
  unfold get_db, reset_cities, reset_cities_to_default, query_City_delete,
    query_DefaultCity_all.
  unfold mbind, M_bind. simpl.
  case_bool_decide; simpl; [done|].
  rewrite for_each_db_add. simpl. unfold commit. simpl.
  by destruct (flush _ []).
Qed.

(** ** Keys given by the INSERT *)

Lemma max_id_nonneg (rows : list City) : 0 <= foldr Z.max 0 (id <$> rows).
Proof. induction rows as [|c rows IH]; [done|]. rewrite fmap_cons. simpl. lia. Qed.

Lemma next_id_gt (rows : list City) c : c ∈ rows -> id c < next_id rows.
Proof.
  unfold next_id. induction rows as [|c' rows IH].
  - by intros ?%elem_of_nil.
  - rewrite fmap_cons. simpl.
    intros [->|Hc]%elem_of_cons; [lia|]. specialize (IH Hc). lia.
Qed.

Lemma next_id_pos (rows : list City) : 1 <= next_id rows.
Proof. unfold next_id. pose proof (max_id_nonneg rows). lia. Qed.

Lemma next_id_app (rows : list City) c :
  next_id (rows ++ [c]) = Z.max (next_id rows) (1 + id c).
Proof.
  unfold next_id. induction rows as [|c' rows IH].
  - simpl. lia.
  - rewrite <- app_comm_cons, !fmap_cons. simpl. lia.
Qed.

Lemma insert_row_Return obj rows rows' :
  insert_row obj rows = Return rows' ->
  (name obj ∉ name <$> rows) /\
  rows' = rows ++ [{| id := next_id rows; name := name obj;
                      latitude := latitude obj; longitude := longitude obj;
                      temperature := temperature obj;
                      updated_at := updated_at obj |}].
Proof.
  unfold insert_row. case_bool_decide; [done|]. by intros [= <-].
Qed.

Lemma insert_row_keyed obj rows rows' :
  keyed rows -> insert_row obj rows = Return rows' -> keyed rows'.
Proof.
  intros (Hids & Hnames & Hpos) [Hfresh ->]%insert_row_Return.
  split; [|split].
  - rewrite fmap_app. simpl. apply NoDup_app. split; [done|].
    split; [|apply NoDup_singleton].
    intros i (c & Hi & Hc)%list_elem_of_fmap Hnew%list_elem_of_singleton.
    apply next_id_gt in Hc. lia.
  - rewrite fmap_app. simpl. apply NoDup_app. split; [done|].
    split; [|apply NoDup_singleton].
    by intros n Hn ->%list_elem_of_singleton.
  - apply Forall_app. split; [done|]. constructor; [|constructor].
    simpl. apply next_id_pos.
Qed.

Lemma flush_keyed objs rows rows' :
  keyed rows -> flush objs rows = Return rows' -> keyed rows'.
Proof.
  revert rows. induction objs as [|obj objs IH]; simpl; intros rows Hrows.
  - by intros [= <-].
  - destruct (insert_row obj rows) as [rows1|e] eqn:Hinsert; simpl; [|done].
    apply IH. by eapply insert_row_keyed.
Qed.

Lemma filter_all {A} (P : A -> Prop) `{forall x, Decision (P x)} (l : list A) :
  Forall P l -> filter P l = l.
Proof.
  induction 1 as [|x l Hx Hl IH]; [done|].
  rewrite filter_cons_True by done. by rewrite IH.
Qed.

Lemma delete_row_filter city_id rows :
  NoDup (id <$> rows) ->
  delete_row city_id rows = filter (fun c => id c <> city_id) rows.
Proof.
  induction rows as [|c rows IH]; [done|].
  rewrite fmap_cons. intros [Hc Hrows]%NoDup_cons. simpl. case_bool_decide as Hid.
  - rewrite filter_cons_False by (by intros ?).
    symmetry. apply filter_all. apply Forall_forall.
    intros c' Hc' Heq. apply Hc. apply list_elem_of_fmap. exists c'.
    split; [congruence | done].
  - rewrite filter_cons_True by done. by rewrite IH.
Qed.

Lemma delete_row_elem_of city_id rows c : c ∈ delete_row city_id rows -> c ∈ rows.
Proof.
  induction rows as [|c' rows IH]; simpl; [done|].
  case_bool_decide; [by right|].
  intros [->|Hc]%elem_of_cons; [left | right; by apply IH].
Qed.

Lemma delete_row_NoDup {B} (f : City -> B) city_id rows :
  NoDup (f <$> rows) -> NoDup (f <$> delete_row city_id rows).
Proof.
  induction rows as [|c rows IH]; [done|].
  rewrite fmap_cons. intros [Hc Hrows]%NoDup_cons. simpl.
  case_bool_decide; [done|]. rewrite fmap_cons. apply NoDup_cons. split; [|by apply IH].
  intros (c' & Hf & Hc')%list_elem_of_fmap. apply Hc.
  apply list_elem_of_fmap. exists c'. split; [done|]. by eapply delete_row_elem_of.
Qed.

Lemma delete_row_keyed city_id rows : keyed rows -> keyed (delete_row city_id rows).
Proof.
  intros (Hids & Hnames & Hpos). split; [|split].
  - by apply delete_row_NoDup.
  - by apply delete_row_NoDup.
  - apply Forall_forall. intros c Hc%delete_row_elem_of.
    rewrite Forall_forall in Hpos. by apply Hpos.
Qed.

Lemma flush_assign_ids env rows temps now rows' :
  mapM (fun obj => obj) (assign env rows temps now) = Return rows' ->
  id <$> rows' = id <$> rows.
Proof.
  intros Hcols%flush_assign_columns.
  apply (f_equal (fmap (fun p : Z * string * float * float => fst (fst (fst p))))) in Hcols.
  by rewrite <- !list_fmap_compose in Hcols.
Qed.

Lemma flush_assign_names env rows temps now rows' :
  mapM (fun obj => obj) (assign env rows temps now) = Return rows' ->
  name <$> rows' = name <$> rows.
Proof.
  intros Hcols%flush_assign_columns.
  apply (f_equal (fmap (fun p : Z * string * float * float => snd (fst (fst p))))) in Hcols.
  by rewrite <- !list_fmap_compose in Hcols.
Qed.

Lemma flush_assign_keyed env rows temps now rows' :
  mapM (fun obj => obj) (assign env rows temps now) = Return rows' ->
  keyed rows -> keyed rows'.
Proof.
  intros Hflush (Hids & Hnames & Hpos). unfold keyed.
  rewrite (flush_assign_ids _ _ _ _ _ Hflush), (flush_assign_names _ _ _ _ _ Hflush).
  split; [done|]. split; [done|].
  apply (Forall_fmap id (fun i => 1 <= i)). rewrite (flush_assign_ids _ _ _ _ _ Hflush).
  by apply (Forall_fmap id (fun i => 1 <= i)).
Qed.

(** Objects with names that are new and distinct all get their row, with
    the rowids that follow the table's. *)
Lemma flush_fresh objs rows :
  NoDup (name <$> objs) ->
  (forall n, n ∈ name <$> objs -> n ∉ name <$> rows) ->
  flush objs rows
  = Return (rows ++ imap (fun k obj => inserted (next_id rows + Z.of_nat k) obj) objs).
Proof.
  revert rows. induction objs as [|obj objs IH]; intros rows Hobjs Hfresh.
  - simpl. by rewrite app_nil_r.
  - rewrite fmap_cons in Hobjs. apply NoDup_cons in Hobjs as [Hobj Hobjs].
    simpl. unfold insert_row.
    rewrite bool_decide_eq_false_2 by (apply Hfresh; rewrite fmap_cons; left).
    simpl. rewrite IH; [|done|].
    + f_equal. rewrite <- app_assoc. simpl. f_equal.
      rewrite Z.add_0_r. f_equal. apply imap_ext. intros k o _. simpl.
      f_equal. rewrite next_id_app. simpl. pose proof (next_id_pos rows). lia.
    + intros n Hn. rewrite fmap_app. simpl. intros [Hrows|Hnew%list_elem_of_singleton]%elem_of_app.
      * apply (Hfresh n); [rewrite fmap_cons; by right | done].
      * subst n. done.
Qed.

Lemma flush_unset objs rows rows' :
  Forall (fun c => updated_at c = None) objs ->
  Forall (fun c => updated_at c = None) rows ->
  flush objs rows = Return rows' ->
  Forall (fun c => updated_at c = None) rows'.
Proof.
  intros Hobjs. revert rows.
  induction Hobjs as [|obj objs Hobj Hobjs IH]; simpl; intros rows Hrows.
  - by intros [= <-].
  - destruct (insert_row obj rows) as [rows1|e] eqn:Hinsert; simpl; [|done].
    apply insert_row_Return in Hinsert as [_ ->]. apply IH.
    apply Forall_app. split; [done|]. by constructor.
Qed.

(** ** Adding and removing a city *)

(** X4. A name that, stripped, is already in the table is refused with
    [HTTPException] 400 naming the city as typed; nothing is stored and no
    request is sent. *)
Theorem add_city_rejects_duplicate (strip : string -> string) (name' : string)
    (latitude longitude : float) (db : Database) :
  strip name' ∈ name <$> cities db ->
  get_db (add_city strip name' latitude longitude) db =
  {| returned := Raise (HTTPException 400 ("城市「" +:+ name' +:+ "」已存在，不可重复添加"));
     store := db; fetched := [] |}.
Proof. intros Hdup. by rewrite add_city_run, bool_decide_eq_true_2. Qed.

Lemma add_city_rejects_duplicate_witness :
  get_db (add_city (fun s => s) "Berlin" 52.0 13.0) three_cities =
  {| returned := Raise (HTTPException 400 "城市「Berlin」已存在，不可重复添加");
     store := three_cities; fetched := [] |}.
Proof.
  apply (add_city_rejects_duplicate (fun s => s) "Berlin" 52.0 13.0 three_cities).
  apply (bool_decide_unpack _). vm_compute. exact I.
Defined.

(** X5. A name that, stripped, is not yet in the table is added as the
    last row: its id is larger than every id in the table, its name is the
    stripped one, temperature and [updated_at] are unset; the rows that were
    there and the default cities are untouched, and the answer is the
    redirect to "/". *)
Theorem add_city_appends (strip : string -> string) (name' : string)
    (latitude longitude : float) (db : Database) :
  strip name' ∉ name <$> cities db ->
  exists new_id,
    (forall c, c ∈ cities db -> id c < new_id) /\
    get_db (add_city strip name' latitude longitude) db =
    {| returned := Return {| url := "/"; response_status_code := 303 |};
       store := {| cities := cities db ++
                             [{| id := new_id; name := strip name';
                                 latitude := latitude; longitude := longitude;
                                 temperature := None; updated_at := None |}];
                   default_cities := default_cities db |};
       fetched := [] |}.
Proof.
  intros Hfresh. exists (next_id (cities db)). split; [apply next_id_gt|].
  by rewrite add_city_run, bool_decide_eq_false_2.
Qed.

Lemma add_city_appends_witness :
  exists new_id,
    (forall c, c ∈ cities three_cities -> id c < new_id) /\
    get_db (add_city (fun s => s) "Oslo" 59.91 10.75) three_cities =
    {| returned := Return {| url := "/"; response_status_code := 303 |};
       store := {| cities := cities three_cities ++
                             [{| id := new_id; name := "Oslo";
                                 latitude := 59.91; longitude := 10.75;
                                 temperature := None; updated_at := None |}];
                   default_cities := default_cities three_cities |};
       fetched := [] |}.
Proof.
  apply (add_city_appends (fun s => s) "Oslo" 59.91 10.75 three_cities).
  apply (bool_decide_unpack _). vm_compute. exact I.
Defined.

(** X6. Removing an id that no row has is refused with [HTTPException] 404
    naming the id; the store is left as it was. *)
Theorem remove_city_unknown_id (city_id : Z) (db : Database) :
  (forall c, c ∈ cities db -> id c <> city_id) ->
  get_db (remove_city city_id) db =
  {| returned := Raise (HTTPException 404 ("城市ID " +:+ pretty city_id +:+ " 不存在，无法删除"));
     store := db; fetched := [] |}.
Proof.
  intros Hnone. rewrite remove_city_run.
  destruct (filter _ (cities db)) as [|found rest] eqn:Hfilter; [done|].
  assert (found ∈ filter (fun c => id c = city_id) (cities db)) as Hfound
    by (rewrite Hfilter; left).
  apply list_elem_of_filter in Hfound as [Hid Hin]. by destruct (Hnone _ Hin).
Qed.

Lemma remove_city_unknown_id_witness :
  get_db (remove_city 7) three_cities =
  {| returned := Raise (HTTPException 404 "城市ID 7 不存在，无法删除");
     store := three_cities; fetched := [] |}.
Proof.
  apply (remove_city_unknown_id 7 three_cities).
  intros c Hc. apply list_elem_of_In in Hc. simpl in Hc.
  destruct Hc as [<-|[<-|[<-|[]]]]; vm_compute; discriminate.
Defined.

(** X7. In a table whose ids are distinct, removing the id of a row takes
    out that row and no other: the rows with another id stay, in their
    order, and the default cities are untouched. *)
Theorem remove_city_removes (city_id : Z) (db : Database) (c : City) :
  NoDup (id <$> cities db) ->
  c ∈ cities db -> id c = city_id ->
  get_db (remove_city city_id) db =
  {| returned := Return {| url := "/"; response_status_code := 303 |};
     store := {| cities := filter (fun c' => id c' <> city_id) (cities db);
                 default_cities := default_cities db |};
     fetched := [] |}.
Proof.
  intros Hids Hc Hid. rewrite remove_city_run.
  destruct (filter _ (cities db)) as [|found rest] eqn:Hfilter.
  - assert (c ∈ filter (fun c => id c = city_id) (cities db)) as Hin
      by (by apply list_elem_of_filter).
    rewrite Hfilter in Hin. by apply elem_of_nil in Hin.
  - assert (found ∈ filter (fun c => id c = city_id) (cities db)) as Hfound
      by (rewrite Hfilter; left).
    apply list_elem_of_filter in Hfound as [-> _].
    by rewrite delete_row_filter.
Qed.

Lemma remove_city_removes_witness :
  get_db (remove_city 2) three_cities =
  {| returned := Return {| url := "/"; response_status_code := 303 |};
     store := {| cities := filter (fun c' => id c' <> 2) (cities three_cities);
                 default_cities := default_cities three_cities |};
     fetched := [] |}.
Proof.
  apply (remove_city_removes 2 three_cities (city 2 "Berlin" 52.52 13.4)).
  - apply (bool_decide_unpack _). vm_compute. exact I.
  - right. left.
  - reflexivity.
Defined.

Lemma filter_id_snoc rows c i :
  id c = i -> (forall c', c' ∈ rows -> id c' <> i) ->
  filter (fun c' => id c' = i) (rows ++ [c]) = [c].
Proof.
  intros Hc Hrows. induction rows as [|c' rows IH]; simpl.
  - by rewrite filter_cons_True.
  - rewrite filter_cons_False by (apply Hrows; left).
    apply IH. intros c'' Hc''. apply Hrows. by right.
Qed.

Lemma delete_row_snoc rows c i :
  id c = i -> (forall c', c' ∈ rows -> id c' <> i) ->
  delete_row i (rows ++ [c]) = rows.
Proof.
  intros Hc Hrows. induction rows as [|c' rows IH]; simpl.
  - by rewrite bool_decide_eq_true_2.
  - rewrite bool_decide_eq_false_2 by (apply Hrows; left).
    rewrite IH; [done|]. intros c'' Hc''. apply Hrows. by right.
Qed.

(** X8. Adding a city and then removing the id it was given gives back the
    store as it was. *)
Theorem add_city_then_remove_city (strip : string -> string) (name' : string)
    (latitude longitude : float) (db : Database) :
  strip name' ∉ name <$> cities db ->
  let added := store (get_db (add_city strip name' latitude longitude) db) in
  exists new_row,
    last (cities added) = Some new_row /\
    store (get_db (remove_city (id new_row)) added) = db.
Proof.
  intros Hfresh added. subst added.
  rewrite add_city_run, bool_decide_eq_false_2 by done. simpl.
  set (c := new_row (next_id (cities db)) (strip name') latitude longitude).
  assert (forall c', c' ∈ cities db -> id c' <> next_id (cities db)) as Hids.
  { intros c' Hc'%next_id_gt. lia. }
  exists c. split; [apply last_snoc|].
  rewrite remove_city_run. simpl.
  rewrite (filter_id_snoc (cities db) c (next_id (cities db)) eq_refl Hids). simpl.
  rewrite (delete_row_snoc (cities db) c (next_id (cities db)) eq_refl Hids).
  by destruct db.
Qed.

Lemma add_city_then_remove_city_witness :
  let added := store (get_db (add_city (fun s => s) "Oslo" 59.91 10.75) three_cities) in
  exists new_row,
    last (cities added) = Some new_row /\
    store (get_db (remove_city (id new_row)) added) = three_cities.
Proof.
  apply (add_city_then_remove_city (fun s => s) "Oslo" 59.91 10.75 three_cities).
  apply (bool_decide_unpack _). vm_compute. exact I.
Defined.

(** ** Resetting to the default cities *)

(** X9. With no default city the reset is refused with [HTTPException] 500
    and the cities survive: the DELETE already run is dropped with the
    session. *)
Theorem reset_cities_without_defaults (db : Database) :
  default_cities db = [] ->
  get_db reset_cities db =
  {| returned := Raise (HTTPException 500 "默认城市数据为空，无法重置");
     store := db; fetched := [] |}.
Proof. intros Hnone. by rewrite reset_cities_run, bool_decide_eq_true_2. Qed.

Lemma reset_cities_without_defaults_witness :
  get_db reset_cities three_cities =
  {| returned := Raise (HTTPException 500 "默认城市数据为空，无法重置");
     store := three_cities; fetched := [] |}.
Proof. apply (reset_cities_without_defaults three_cities). reflexivity. Defined.

(** X10. With default cities of distinct names the reset replaces the
    cities by one row per default city, in the defaults' order, with ids 1,
    2, ... and temperature and [updated_at] unset; the defaults stay. *)
Theorem reset_cities_copies_defaults (db : Database) :
  default_cities db <> [] ->
  NoDup (default_name <$> default_cities db) ->
  get_db reset_cities db =
  {| returned := Return {| url := "/"; response_status_code := 303 |};
     store := {| cities := imap (fun k d =>
                                   {| id := Z.of_nat k + 1;
                                      name := default_name d;
                                      latitude := default_latitude d;
                                      longitude := default_longitude d;
                                      temperature := None;
                                      updated_at := None |})
                                (default_cities db);
                 default_cities := default_cities db |};
     fetched := [] |}.
Proof.
  intros Hsome Hnames. rewrite reset_cities_run, bool_decide_eq_false_2 by done.
  rewrite flush_fresh.
  - simpl. rewrite imap_fmap. unfold with_cities. do 2 f_equal.
    apply imap_ext. intros k d _. unfold inserted, new_row, next_id. simpl.
    f_equal. lia.
  - by rewrite <- list_fmap_compose.
  - intros n _. simpl. apply not_elem_of_nil.
Qed.

Lemma reset_cities_copies_defaults_witness :
  get_db reset_cities refreshed_with_defaults =
  {| returned := Return {| url := "/"; response_status_code := 303 |};
     store := {| cities := imap (fun k d =>
                                   {| id := Z.of_nat k + 1;
                                      name := default_name d;
                                      latitude := default_latitude d;
                                      longitude := default_longitude d;
                                      temperature := None;
                                      updated_at := None |})
                                europe;
                 default_cities := europe |};
     fetched := [] |}.
Proof.
  apply (reset_cities_copies_defaults refreshed_with_defaults).
  - discriminate.
  - apply (bool_decide_unpack _). vm_compute. exact I.
Defined.

(** X11. After a reset that went through, the cooldown gate lets a refresh
    pass at any time: no row carries a timestamp any more. *)
Theorem reset_cities_opens_gate (db : Database) (r : RedirectResponse) (env : Env) :
  returned (get_db reset_cities db) = Return r ->
  returned (get_db (check_update_cooldown env) (store (get_db reset_cities db)))
  = Return true.
Proof.
  rewrite reset_cities_run. case_bool_decide; simpl; [done|].
  destruct (flush _ []) as [rows|e] eqn:Hflush; simpl; [|done]. intros _.
  rewrite gate_returns. f_equal. apply permitted_iff. left. simpl.
  apply flush_unset in Hflush; [| |constructor].
  - apply Forall_fmap. eapply Forall_impl; [exact Hflush|]. done.
  - apply Forall_fmap, Forall_forall. done.
Qed.

(** The three cities, refreshed a microsecond ago, are reset. *)
Lemma reset_cities_opens_gate_witness :
  returned (get_db (check_update_cooldown (mock_env (weather 15.0) 1001))
                   (store (get_db reset_cities refreshed_with_defaults)))
  = Return true.
Proof.
  apply (reset_cities_opens_gate refreshed_with_defaults redirect_home
           (mock_env (weather 15.0) 1001)).
  vm_compute. reflexivity.
Defined.

(** ** What moves the cooldown gate *)

(** X12. Adding a city neither opens nor shuts the cooldown gate: the gate
    answers for the store after [add_city] as for the store before, whether
    the city was added or refused. *)
Theorem add_city_keeps_gate (strip : string -> string) (name' : string)
    (latitude longitude : float) (env : Env) (db : Database) :
  returned (get_db (check_update_cooldown env)
                   (store (get_db (add_city strip name' latitude longitude) db)))
  = returned (get_db (check_update_cooldown env) db).
Proof.
  rewrite !gate_returns. f_equal. rewrite add_city_run.
  case_bool_decide; simpl; [done|].
  apply eq_true_iff_eq. rewrite !permitted_iff. simpl.
  rewrite fmap_app. simpl. rewrite Forall_app.
  split; intros [Hnone|(latest & Hin & Hmax & Hlate)].
  - left. tauto.
  - right. exists latest. split; [|split; [|done]].
    + apply elem_of_app in Hin as [Hin|Hin%list_elem_of_singleton]; done.
    + intros t Ht. apply Hmax. apply elem_of_app. by left.
  - left. split; [done|]. by constructor.
  - right. exists latest. split; [|split; [|done]].
    + apply elem_of_app. by left.
    + intros t [Ht|Ht%list_elem_of_singleton]%elem_of_app; [by apply Hmax | done].
Qed.

(** X19. Once open the gate stays open as the clock goes on: with the store
    unchanged, a later reading of the clock is let through as well. *)
Theorem check_update_cooldown_stays_open (env1 env2 : Env) (db : Database) :
  returned (get_db (check_update_cooldown env1) db) = Return true ->
  now_cooldown env1 <= now_cooldown env2 ->
  returned (get_db (check_update_cooldown env2) db) = Return true.
Proof.
  rewrite !gate_returns. intros [= Hopen] Hlater. f_equal.
  apply permitted_iff. apply permitted_iff in Hopen as [Hnone|(latest & Hin & Hmax & Hlate)].
  - by left.
  - right. exists latest. split; [done|]. split; [done|].
    apply total_seconds_Qle_900.
    apply (proj1 (total_seconds_Qle_900 _)) in Hlate. lia.
Qed.

Lemma check_update_cooldown_stays_open_witness :
  returned (get_db (check_update_cooldown (mock_env (weather 15.0) 950000000))
                   refreshed_cities)
  = Return true.
Proof.
  apply (check_update_cooldown_stays_open (mock_env (weather 15.0) 900001000)
           (mock_env (weather 15.0) 950000000) refreshed_cities).
  - vm_compute. reflexivity.
  - vm_compute. discriminate.
Defined.

(** ** What every route keeps *)

Lemma keyed_nil : keyed [].
Proof. repeat split; constructor. Qed.

(** X13. No route writes the default cities: adding, removing, resetting
    and refreshing all leave that table as it was, whatever they answer. *)
Theorem serve_keeps_default_cities (strip : string -> string) (op : operation)
    (db : Database) :
  default_cities (store (serve strip op db)) = default_cities db.
Proof.
  destruct op as [name' latitude longitude|city_id| |env]; simpl.
  - rewrite add_city_run. by case_bool_decide.
  - rewrite remove_city_run. by destruct (filter _ (cities db)).
  - rewrite reset_cities_run. case_bool_decide; [done|]. by destruct (flush _ []).
  - rewrite update_weather_run. destruct (permitted env db); simpl; [|done].
    case_bool_decide; [done|].
    destruct (first_raised (outcomes env (cities db))) as [[n e]|]; [done|].
    by destruct (mapM _ (assign env _ _ _)).
Qed.

(** X14. Every route keeps the keys of the cities table: ids stay distinct
    and at least 1, names stay distinct. *)
Theorem serve_keeps_keys (strip : string -> string) (op : operation) (db : Database) :
  NoDup (id <$> cities db) /\ NoDup (name <$> cities db) /\
  Forall (fun c => 1 <= id c) (cities db) ->
  NoDup (id <$> cities (store (serve strip op db))) /\
  NoDup (name <$> cities (store (serve strip op db))) /\
  Forall (fun c => 1 <= id c) (cities (store (serve strip op db))).
Proof.
  intros Hdb. change (keyed (cities db)) in Hdb.
  change (keyed (cities (store (serve strip op db)))).
  destruct op as [name' latitude longitude|city_id| |env]; simpl.
  - rewrite add_city_run. case_bool_decide as Hdup; simpl; [done|].
    apply (insert_row_keyed (new_row 0 (strip name') latitude longitude) (cities db));
      [done|].
    unfold insert_row. simpl. by rewrite bool_decide_eq_false_2.
  - rewrite remove_city_run. destruct (filter _ (cities db)); simpl; [done|].
    by apply delete_row_keyed.
  - rewrite reset_cities_run. case_bool_decide; simpl; [done|].
    destruct (flush _ []) as [rows|e] eqn:Hflush; simpl; [|done].
    eapply flush_keyed; [apply keyed_nil | exact Hflush].
  - rewrite update_weather_run. destruct (permitted env db); simpl; [|done].
    case_bool_decide; [done|].
    destruct (first_raised (outcomes env (cities db))) as [[n e]|]; simpl; [done|].
    destruct (mapM _ (assign env _ _ _)) as [rows|e] eqn:Hflush; simpl; [|done].
    by eapply flush_assign_keyed.
Qed.

(** The three cities and a fourth one added. *)
Lemma serve_keeps_keys_witness :
  let after := cities (store (serve (fun s => s) (AddCity "Oslo" 59.91 10.75) three_cities)) in
  NoDup (id <$> after) /\ NoDup (name <$> after) /\ Forall (fun c => 1 <= id c) after.
Proof.
  apply (serve_keeps_keys (fun s => s) (AddCity "Oslo" 59.91 10.75) three_cities).
  split; [|split].
  - apply (bool_decide_unpack _). vm_compute. exact I.
  - apply (bool_decide_unpack _). vm_compute. exact I.
  - repeat constructor; vm_compute; discriminate.
Defined.

(** ** More on the refresh *)

(** X16. Whatever it answers, a refresh leaves the rows in their places
    with their ids, names and coordinates: it adds no row, removes none and
    reorders none. *)
Theorem update_weather_keeps_rows (env : Env) (db : Database) :
  (fun c => (id c, name c, latitude c, longitude c))
    <$> cities (store (get_db (update_weather env) db))
  = (fun c => (id c, name c, latitude c, longitude c)) <$> cities db.
Proof.
  rewrite update_weather_run. destruct (permitted env db); simpl; [|done].
  case_bool_decide; [done|].
  destruct (first_raised (outcomes env (cities db))) as [[n e]|]; simpl; [done|].
  destruct (mapM _ (assign env _ _ _)) as [rows|e] eqn:Hflush; simpl; [|done].
  by eapply flush_assign_columns.
Qed.

(** X17. When the fetch for one city fails and all the others return, the
    refresh raises that fetch's exception as it is: an [HTTPException] with
    the same status code and detail, any other exception unchanged. *)
Theorem update_weather_reports_the_failure (env : Env) (db : Database)
    (k : nat) (c : City) (e : exn) :
  returned (get_db (check_update_cooldown env) db) = Return true ->
  cities db !! k = Some c ->
  fetch_outcome env k c = Raise e ->
  (forall k' c', k' <> k -> cities db !! k' = Some c' ->
     exists t, fetch_outcome env k' c' = Return t) ->
  returned (get_db (update_weather env) db) = Raise e.
Proof.
  intros Hgate%gate_open Hc He Hothers.
  assert (cities db <> []) as Hrows by (intros Hnil; by rewrite Hnil in Hc).
  rewrite update_weather_run, Hgate. simpl.
  rewrite bool_decide_eq_false_2 by done.
  destruct (a_task_raised env (cities db) k c e Hc He) as [[n e'] Hfirst].
  rewrite Hfirst. simpl. f_equal.
  destruct (raised_by_a_task _ _ _ _ Hfirst) as (k' & c' & Hc' & He').
  destruct (decide (k' = k)) as [->|Hne]; [congruence|].
  destruct (Hothers k' c' Hne Hc') as [t Ht]. congruence.
Qed.

(** The service answers Berlin's request with status 404. *)
Lemma update_weather_reports_the_failure_witness :
  returned (get_db (update_weather (mock_env (Responded 404 (VDict ∅)) 1000)) three_cities)
  = Raise (HTTPException 503 "天气API请求失败，状态码：404").
Proof.
  apply (update_weather_reports_the_failure (mock_env (Responded 404 (VDict ∅)) 1000) three_cities
           1%nat (city 2 "Berlin" 52.52 13.4)).
  - vm_compute. reflexivity.
  - reflexivity.
  - vm_compute. reflexivity.
  - intros k' c' Hne Hc'.
    destruct k' as [|[|[|k']]]; [| done | |]; cbn in Hc'; try discriminate Hc';
      inversion Hc'; subst; eexists; vm_compute; reflexivity.
Defined.

(** X18. A fetch returns only for a 200 answer that is a JSON object whose
    ["current_weather"] is an object with a ["temperature"] key, and then it
    returns the value found there, whatever it is ([None] for null
    included); in every other case it raises. *)
Theorem fetch_weather_returns_iff (latitude longitude : float) (r : reply) (t : value) :
  resume (fetch_weather latitude longitude) r = Return t <->
  exists response_data current_weather,
    r = Responded 200 (VDict response_data) /\
    response_data !! "current_weather" = Some (VDict current_weather) /\
    current_weather !! "temperature" = Some t.
Proof.
  split.
  - destruct r as [e|status response_data]; simpl.
    + by destruct e.
    + case_bool_decide as Hstatus; simpl; [done|]. subst status.
      destruct response_data as [| | | | | |response_data]; simpl; try done.
      unfold subscript at 1.
      destruct (response_data !! "current_weather") as [current_weather|] eqn:Hcw;
        simpl; [|done].
      destruct current_weather as [| | | | | |current_weather]; simpl; try done.
      unfold subscript.
      destruct (current_weather !! "temperature") as [t'|] eqn:Ht; simpl; [|done].
      intros [= ->]. eauto.
  - intros (response_data & current_weather & -> & Hcw & Ht). simpl.
    unfold subscript at 1. rewrite Hcw. simpl. unfold subscript. by rewrite Ht.
Qed.

(** ** The index page *)

Lemma insert_by_temperature_perm row sorted :
  insert_by_temperature row sorted ≡ₚ row :: sorted.
Proof.
  induction sorted as [|next sorted IH]; simpl; [done|].
  destruct (desc_nullslast _ _); [done|]. rewrite IH. apply Permutation_swap.
Qed.

Lemma order_by_temperature_perm rows :
  order_by_temperature_desc_nullslast rows ≡ₚ rows.
Proof.
  unfold order_by_temperature_desc_nullslast.
  induction rows as [|row rows IH]; simpl; [done|].
  by rewrite insert_by_temperature_perm, IH.
Qed.

(** The ordered rows split in those with a temperature and, after them,
    those without. *)
Lemma insert_by_temperature_split row known unknown :
  Forall (fun c => is_Some (temperature c)) known ->
  Forall (fun c => temperature c = None) unknown ->
  exists known' unknown',
    insert_by_temperature row (known ++ unknown) = known' ++ unknown' /\
    Forall (fun c => is_Some (temperature c)) known' /\
    Forall (fun c => temperature c = None) unknown'.
Proof.
  intros Hknown Hunknown.
  induction Hknown as [|next known [y Hnext] Hknown IH]; simpl.
  - destruct (temperature row) as [x|] eqn:Hrow.
    + exists [row], unknown. split; [|split; [|done]].
      * destruct Hunknown as [|next unknown Hnext Hunknown]; simpl; [done|].
        by rewrite Hrow, Hnext.
      * constructor; [by rewrite Hrow | constructor].
    + exists [], (row :: unknown). split; [|split; [constructor|by constructor]].
      destruct Hunknown as [|next unknown Hnext Hunknown]; simpl; [done|].
      by rewrite Hrow, Hnext.
  - destruct IH as (known' & unknown' & Heq & Hk & Hu).
    destruct (desc_nullslast (temperature row) (temperature next)) eqn:Hbefore.
    + exists (row :: next :: known), unknown. split; [done|]. split; [|done].
      constructor; [|constructor; [by rewrite Hnext | done]].
      rewrite Hnext in Hbefore. by destruct (temperature row).
    + exists (next :: known'), unknown'. split; [by rewrite Heq|]. split; [|done].
      constructor; [by rewrite Hnext | done].
Qed.

Lemma order_by_temperature_split rows :
  exists known unknown,
    order_by_temperature_desc_nullslast rows = known ++ unknown /\
    Forall (fun c => is_Some (temperature c)) known /\
    Forall (fun c => temperature c = None) unknown.
Proof.
  unfold order_by_temperature_desc_nullslast.
  induction rows as [|row rows IH]; simpl.
  - exists [], []. by repeat split.
  - destruct IH as (known & unknown & -> & Hk & Hu).
    by apply insert_by_temperature_split.
Qed.

(** X20. The index page shows every city of the table exactly once, the
    cities without a temperature after all those with one, under the
    template index.html; showing it changes nothing and sends no request. *)
Theorem read_index_lists_every_city (db : Database) :
  exists shown,
    get_db read_index db =
    {| returned := Return {| template_name := "index.html"; context_cities := shown |};
       store := db; fetched := [] |} /\
    shown ≡ₚ cities db /\
    forall i j ci cj,
      (i < j)%nat -> shown !! i = Some ci -> shown !! j = Some cj ->
      temperature ci = None -> temperature cj = None.
Proof.
  exists (order_by_temperature_desc_nullslast (cities db)).
  split; [done|]. split; [apply order_by_temperature_perm|].
  destruct (order_by_temperature_split (cities db)) as (known & unknown & -> & Hk & Hu).
  intros i j ci cj Hij Hi Hj Hnone.
  assert (length known <= i)%nat as Hlen.
  { destruct (decide (i < length known)%nat) as [Hlt|]; [|lia].
    rewrite lookup_app_l in Hi by done.
    rewrite Forall_lookup in Hk. destruct (Hk _ _ Hi) as [x Hx]. congruence. }
  rewrite lookup_app_r in Hj by lia.
  rewrite Forall_lookup in Hu. by eapply Hu.
Qed.

(** The three cities after their refresh, with a city added since: Rome
    (20.0), Berlin (15.0), Paris (10.0), then the city without a
    temperature. *)
Example read_index_after_add_city :
  name <$> context_cities
    (match returned (get_db read_index
                       (store (get_db (add_city (fun s => s) "Oslo" 59.91 10.75)
                                      refreshed_cities))) with
     | Return response => response
     | Raise _ => {| template_name := "index.html"; context_cities := [] |}
     end)
  = ["Rome"; "Berlin"; "Paris"; "Oslo"].
Proof. vm_compute. reflexivity. Qed.

(** ** When temperature and timestamp stay paired *)

Lemma delete_row_paired city_id rows :
  Forall paired rows -> Forall paired (delete_row city_id rows).
Proof.
  induction 1 as [|c rows Hc Hrows IH]; simpl; [constructor|].
  case_bool_decide; [done | by constructor].
Qed.

Lemma flush_paired objs rows rows' :
  Forall paired objs -> Forall paired rows ->
  flush objs rows = Return rows' -> Forall paired rows'.
Proof.
  intros Hobjs. revert rows.
  induction Hobjs as [|obj objs Hobj Hobjs IH]; simpl; intros rows Hrows.
  - by intros [= <-].
  - destruct (insert_row obj rows) as [rows1|e] eqn:Hinsert; simpl; [|done].
    apply insert_row_Return in Hinsert as [_ ->]. apply IH.
    apply Forall_app. split; [done|]. constructor; [|constructor]. exact Hobj.
Qed.

(** X21. Adding, removing and resetting always leave temperature and
    [updated_at] unset together or set together in every row, when they
    find the table so; a refresh does so whenever none of the values
    fetched is stored as NULL (as null and NaN are). *)
Theorem serve_keeps_paired_unless_null (strip : string -> string) (op : operation)
    (db : Database) :
  Forall (fun c => temperature c = None <-> updated_at c = None) (cities db) ->
  match op with
  | UpdateWeather env =>
      forall k c t, cities db !! k = Some c -> fetch_outcome env k c = Return t ->
                    bind_temperature env t <> Return None
  | _ => True
  end ->
  Forall (fun c => temperature c = None <-> updated_at c = None)
         (cities (store (serve strip op db))).
Proof.
  intros Hdb Hop. change (Forall paired (cities db)) in Hdb.
  change (Forall paired (cities (store (serve strip op db)))).
  destruct op as [name' latitude longitude|city_id| |env]; simpl.
  - rewrite add_city_run. case_bool_decide; simpl; [done|].
    apply Forall_app. split; [done|]. by constructor.
  - rewrite remove_city_run. destruct (filter _ (cities db)); simpl; [done|].
    by apply delete_row_paired.
  - rewrite reset_cities_run. case_bool_decide; simpl; [done|].
    destruct (flush _ []) as [rows|e] eqn:Hflush; simpl; [|done].
    eapply flush_paired; [|constructor|exact Hflush].
    apply Forall_fmap, Forall_forall. by intros d _.
  - rewrite update_weather_run. destruct (permitted env db); simpl; [|done].
    case_bool_decide; [done|].
    destruct (first_raised (outcomes env (cities db))) as [[n e]|] eqn:Hfirst;
      simpl; [done|].
    destruct (mapM _ (assign env _ _ _)) as [rows|e] eqn:Hflush; simpl; [|done].
    destruct (flush_assign_Return _ _ _ _ _ Hflush) as [Hlen Hlookup].
    apply Forall_lookup. intros k c' Hc'.
    assert (is_Some (cities db !! k)) as [c Hc].
    { apply lookup_lt_is_Some. apply lookup_lt_Some in Hc'. by rewrite <- Hlen. }
    destruct (gathered_lookup env (cities db) k c Hfirst Hc) as (t & Ht & Hk).
    destruct (Hlookup k c t Hc Hk) as (stored_temp & Hbind & Hrow).
    rewrite Hrow in Hc'. injection Hc' as <-.
    specialize (Hop k c t Hc Ht). unfold paired. simpl.
    destruct stored_temp; [done | by destruct Hop].
Qed.

(** A refresh of the three cities, none of them updated yet, with three
    temperatures that are numbers. *)
Lemma serve_keeps_paired_unless_null_witness :
  Forall (fun c => temperature c = None <-> updated_at c = None)
         (cities (store (serve (fun s => s) (UpdateWeather (mock_env (weather 15.0) 1000))
                           three_cities))).
Proof.
  apply (serve_keeps_paired_unless_null
           (fun s => s) (UpdateWeather (mock_env (weather 15.0) 1000)) three_cities).
  - repeat constructor; reflexivity.
  - intros k c t Hc Ht.
    destruct k as [|[|[|k]]]; cbn in Hc; try discriminate Hc;
      inversion Hc; subst; vm_compute in Ht; inversion Ht; subst;
      vm_compute; discriminate.
Defined.
